(** * Delta hedging bot (server.js): a shallow embedding and its properties

    The development follows [server.js]: the exchange client [DeltaAPI]
    and the engine [TradingBot].

    Conventions of the embedding.
    - A JavaScript number is an exact rational ([Q]); NaN, the infinities
      and rounding are outside the model.  Comparisons are the boolean
      ones of [Q], [Math.abs] is [Qabs].
    - An object field that may be missing is an [option]; [x || d] and
      [if (x)] follow JavaScript truthiness on the modelled types.
    - A template literal is kept as its list of pieces ([Piece]): the
      literal text and the numbers with the number of digits asked of
      [toFixed]; the decimal rendering itself is not computed.
    - [async] functions are resumptions ([Susp]): a computation runs on
      the bot's state until it awaits the HTTP client, and is resumed with
      the reply.  Every effect on the outside (console, socket, HTTP,
      timers) is appended to a trace.
    - On the typed data of the model no operation throws, so the [catch]
      blocks of [checkAndHedge] and [executeHedge] have no counterpart; the
      [catch] blocks around the two HTTP calls are the [Rejected] cases. *)

From Stdlib Require Import List String Ascii ZArith QArith Qabs Lia Bool Arith.
From Stdlib Require Import Permutation.
Import ListNotations.

Local Open Scope string_scope.
Local Open Scope list_scope.

(** ** JavaScript numbers *)

Module Js.

Local Open Scope Q_scope.

(** [x >= y] and [x > y], [x < y] on numbers. *)
Definition geb (x y : Q) : bool := Qle_bool y x.
Definition ltb (x y : Q) : bool := negb (Qle_bool y x).
Definition gtb (x y : Q) : bool := ltb y x.

(** Truthiness of a number: every number but zero. *)
Definition truthy (x : Q) : bool := negb (Qeq_bool x 0).

(** [x || d] where [x] is a number field that may be missing. *)
Definition orNum (x : option Q) (d : Q) : Q :=
  match x with
  | Some v => if truthy v then v else d
  | None => d
  end.

(** [s || d] where [s] is a string that may be missing. *)
Definition orStr (s : option string) (d : string) : string :=
  match s with
  | Some v => if String.eqb v "" then d else v
  | None => d
  end.

(** [xs.includes(x)] on an array of strings. *)
Definition includes (xs : list string) (x : string) : bool :=
  existsb (String.eqb x) xs.

(** [s.toUpperCase()], on the ASCII letters. *)
Definition upperAscii (c : ascii) : ascii :=
  let n := nat_of_ascii c in
  if ((97 <=? n) && (n <=? 122))%nat then ascii_of_nat (n - 32) else c.

Fixpoint toUpperCase (s : string) : string :=
  match s with
  | EmptyString => EmptyString
  | String c r => String (upperAscii c) (toUpperCase r)
  end.

(** [a.slice(0, e)]: a negative end counts from the end of the array. *)
Definition slice0 {A} (a : list A) (e : Z) : list A :=
  if (e <? 0)%Z
  then firstn (Z.to_nat (Z.max (Z.of_nat (List.length a) + e) 0)) a
  else firstn (Z.to_nat e) a.

(** [a.slice(b)] for a negative or zero begin, as [getDeltaHistory] calls
    it with [-limit]; a positive begin drops that many elements. *)
Definition sliceFrom {A} (a : list A) (b : Z) : list A :=
  if (b <? 0)%Z
  then skipn (Z.to_nat (Z.max (Z.of_nat (List.length a) + b) 0)) a
  else skipn (Z.to_nat b) a.

End Js.

(** ** Positions, as the exchange returns them *)

Record Product := mkProduct { product_type : option string }.

Record Position := mkPosition {
  size : option Q;
  delta : option Q;
  product : option Product;
  mark_price : option Q
}.

(** The result of [calculatePortfolioDelta]. *)
Record DeltaInfo := mkDeltaInfo {
  deltaPercentage : Q;
  totalDelta : Q;
  ethValue : Q
}.

(** ** The delta calculation (server.js, [calculatePortfolioDelta]) *)

Module Calc.

Local Open Scope Q_scope.

(** [position.product?.product_type || ''] *)
Definition productTypeOf (position : Position) : string :=
  Js.orStr (match product position with
            | Some p => product_type p
            | None => None
            end) "".

(** The body of the [forEach] callback, on the two accumulators. *)
Definition forEachBody (acc : Q * Q) (position : Position) : Q * Q :=
  let '(totalDelta, ethValue) := acc in
  let size := Js.orNum (size position) 0 in
  let delta := Js.orNum (delta position) 0 in
  let productType := productTypeOf position in
  let markPrice := Js.orNum (mark_price position) 0 in
  let positionDelta :=
    if String.eqb productType "future" then size
    else if Js.includes ["call_options"; "put_options"] productType
         then size * delta
         else 0 in
  (totalDelta + positionDelta, ethValue + Qabs size * markPrice).

Definition calculatePortfolioDelta (positions : list Position) : DeltaInfo :=
  let '(totalDelta, ethValue) := fold_left forEachBody positions (0, 0) in
  let deltaPercentage :=
    if Js.gtb ethValue 0 then totalDelta / ethValue else 0 in
  mkDeltaInfo deltaPercentage totalDelta ethValue.

End Calc.

Export Calc.

(** ** Data of the engine *)

(** The body of an order, as [placeFutureOrder] builds it. *)
Record OrderData := mkOrderData {
  product_id : Z;
  o_size : Q;
  o_side : string;
  order_type : string;
  time_in_force : string
}.

(** The pieces of a template literal or of a string concatenation. *)
Inductive Piece :=
| Lit (s : string)                 (* literal text, or a string value *)
| Fixed (x : Q) (digits : nat)     (* x.toFixed(digits) *)
| Int (z : Z)                      (* an integer turned into text *)
| Json (d : OrderData).            (* JSON.stringify(d) *)

Definition Message := list Piece.

(** What [placeFutureOrder] returns: [{success: true, data}] or
    [{success: false, error}]. *)
Inductive OrderResult :=
| OrderOk (data : string)
| OrderFailed (error : string).

Definition success (o : OrderResult) : bool :=
  match o with OrderOk _ => true | OrderFailed _ => false end.

Record LogEntry := mkLogEntry {
  level : string;
  message : Message;
  l_createdAt : Z
}.

Record HistoryEntry := mkHistoryEntry {
  h_deltaPercentage : Q;
  h_totalDelta : Q;
  h_ethValue : Q;
  positionsCount : nat;
  h_createdAt : Z
}.

Record Trade := mkTrade {
  side : string;
  hedgeSize : Q;
  t_currentDelta : Q;
  orderResponse : OrderResult;
  t_createdAt : Z
}.

Record Settings := mkSettings {
  deltaThreshold : Q;
  checkInterval : Q;
  minHedgeSize : Q;
  ethFutureProductId : Z
}.

(** The fields of a request body to [/api/settings]; each may be missing. *)
Record NewSettings := mkNewSettings {
  n_deltaThreshold : option Q;
  n_checkInterval : option Q;
  n_minHedgeSize : option Q
}.

Inductive Status := stopped | running.

Definition Status_eqb (a b : Status) : bool :=
  match a, b with
  | stopped, stopped | running, running => true
  | _, _ => false
  end.

(** The fields of a [DeltaAPI] object. *)
Record Api := mkApi {
  apiKey : string;
  apiSecret : string;
  baseURL : string
}.

(** The fields of the [TradingBot] object. *)
Record Bot := mkBot {
  api : Api;
  status : Status;
  currentDelta : Q;
  b_ethValue : Q;
  totalTrades : nat;
  lastCheck : option Z;
  settings : Settings;
  deltaHistory : list HistoryEntry;
  trades : list Trade;
  logs : list LogEntry;
  interval : option nat
}.

(** ** Effects on the outside *)

(** An HMAC-SHA256 digest is kept as the key and the text it is taken of. *)
Record Hmac := mkHmac { hmac_key : string; hmac_data : Message }.

Record Headers := mkHeaders {
  api_key : string;
  timestamp : Z;
  signature : Hmac;
  content_type : string
}.

(** The payloads published on the socket. *)
Inductive Payload :=
| PLog (level : string) (message : Message) (time : Z)
| PDeltaUpdate (delta ethValue : Q) (lastCheck : option Z)
| PTradeExecuted (side : string) (size deltaBefore : Q) (totalTrades : nat).

Inductive Effect :=
| ConsoleLog (m : Message)
| ConsoleError (m : Message)
| Emit (name : string) (payload : Payload)
| HttpGet (url : string) (headers : Headers)
| HttpPost (url : string) (data : OrderData) (headers : Headers)
| SetInterval (id : nat) (period : Q)
| ClearInterval (id : nat).

(** The bot, the wall clock (milliseconds), the effects so far (oldest
    first) and the next timer handle. *)
Record World := mkWorld {
  bot : Bot;
  now : Z;
  trace : list Effect;
  nextTimer : nat
}.

(** ** Asynchronous computations *)

(** What [await axios...] gives back: the response data, or a rejection
    with the error's message. *)
Inductive AxiosResult (A : Type) :=
| Resolved (data : A)
| Rejected (message : string).
Arguments Resolved {A} data.
Arguments Rejected {A} message.

(** [response.data] of the positions request: its [result] field. *)
Record PositionsData := mkPositionsData { result : option (list Position) }.

(** A computation that ran as far as it could: finished, waiting for the
    reply to a GET or a POST, or having started a computation that nobody
    awaits ([Fork]). *)
#[warnings="-register-all"]
Inductive Susp (A : Type) : Type :=
| Done (a : A)
| AwaitGet (k : AxiosResult PositionsData -> World -> Susp A * World)
| AwaitPost (k : AxiosResult string -> World -> Susp A * World)
| Fork (child : Susp unit) (rest : Susp A).
Arguments Done {A} a.
Arguments AwaitGet {A} k.
Arguments AwaitPost {A} k.
Arguments Fork {A} child rest.

Definition M (A : Type) : Type := World -> Susp A * World.

Definition ret {A} (a : A) : M A := fun w => (Done a, w).

Fixpoint bindS {A B} (s : Susp A) (f : A -> M B) (w : World) : Susp B * World :=
  match s with
  | Done a => f a w
  | AwaitGet k =>
      (AwaitGet (fun r w' => let p := k r w' in bindS (fst p) f (snd p)), w)
  | AwaitPost k =>
      (AwaitPost (fun r w' => let p := k r w' in bindS (fst p) f (snd p)), w)
  | Fork child rest =>
      let p := bindS rest f w in (Fork child (fst p), snd p)
  end.

Definition bind {A B} (m : M A) (f : A -> M B) : M B :=
  fun w => let p := m w in bindS (fst p) f (snd p).

Declare Scope js_scope.
Delimit Scope js_scope with js.
Notation "x <- c1 ;; c2" := (bind c1 (fun x => c2))
  (at level 61, c1 at next level, right associativity) : js_scope.
Notation "c1 ;; c2" := (bind c1 (fun _ => c2))
  (at level 61, right associativity) : js_scope.

Local Open Scope js_scope.

(** *** Primitive steps *)

Definition getBot : M Bot := fun w => (Done (bot w), w).

Definition modifyBot (f : Bot -> Bot) : M unit :=
  fun w => (Done tt, mkWorld (f (bot w)) (now w) (trace w) (nextTimer w)).

Definition effect (e : Effect) : M unit :=
  fun w => (Done tt, mkWorld (bot w) (now w) (trace w ++ [e]) (nextTimer w)).

(** [new Date()] and [Date.now()] read the wall clock. *)
Definition newDate : M Z := fun w => (Done (now w), w).

(** [setInterval]: a fresh handle is returned and the timer is armed. *)
Definition setInterval (period : Q) : M nat :=
  fun w => (Done (nextTimer w),
            mkWorld (bot w) (now w) (trace w ++ [SetInterval (nextTimer w) period])
                    (S (nextTimer w))).

Definition clearInterval (id : nat) : M unit := effect (ClearInterval id).

(** [await axios.get(url, {headers, timeout})] *)
Definition axiosGet (url : string) (headers : Headers)
  : M (AxiosResult PositionsData) :=
  fun w => (AwaitGet (fun r w' => (Done r, w')),
            mkWorld (bot w) (now w) (trace w ++ [HttpGet url headers]) (nextTimer w)).

(** [await axios.post(url, data, {headers, timeout})] *)
Definition axiosPost (url : string) (data : OrderData) (headers : Headers)
  : M (AxiosResult string) :=
  fun w => (AwaitPost (fun r w' => (Done r, w')),
            mkWorld (bot w) (now w) (trace w ++ [HttpPost url data headers])
                    (nextTimer w)).

(** Calling an [async] function without awaiting it: it runs up to its
    first [await], and the caller goes on. *)
Definition spawn (m : M unit) : M unit :=
  fun w => let p := m w in (Fork (fst p) (Done tt), snd p).

(** *** Field updates of the bot *)

Definition set_status (v : Status) (b : Bot) : Bot :=
  mkBot (api b) v (currentDelta b) (b_ethValue b) (totalTrades b) (lastCheck b)
        (settings b) (deltaHistory b) (trades b) (logs b) (interval b).
Definition set_currentDelta (v : Q) (b : Bot) : Bot :=
  mkBot (api b) (status b) v (b_ethValue b) (totalTrades b) (lastCheck b)
        (settings b) (deltaHistory b) (trades b) (logs b) (interval b).
Definition set_ethValue (v : Q) (b : Bot) : Bot :=
  mkBot (api b) (status b) (currentDelta b) v (totalTrades b) (lastCheck b)
        (settings b) (deltaHistory b) (trades b) (logs b) (interval b).
Definition set_totalTrades (v : nat) (b : Bot) : Bot :=
  mkBot (api b) (status b) (currentDelta b) (b_ethValue b) v (lastCheck b)
        (settings b) (deltaHistory b) (trades b) (logs b) (interval b).
Definition set_lastCheck (v : option Z) (b : Bot) : Bot :=
  mkBot (api b) (status b) (currentDelta b) (b_ethValue b) (totalTrades b) v
        (settings b) (deltaHistory b) (trades b) (logs b) (interval b).
Definition set_settings (v : Settings) (b : Bot) : Bot :=
  mkBot (api b) (status b) (currentDelta b) (b_ethValue b) (totalTrades b)
        (lastCheck b) v (deltaHistory b) (trades b) (logs b) (interval b).
Definition set_deltaHistory (v : list HistoryEntry) (b : Bot) : Bot :=
  mkBot (api b) (status b) (currentDelta b) (b_ethValue b) (totalTrades b)
        (lastCheck b) (settings b) v (trades b) (logs b) (interval b).
Definition set_trades (v : list Trade) (b : Bot) : Bot :=
  mkBot (api b) (status b) (currentDelta b) (b_ethValue b) (totalTrades b)
        (lastCheck b) (settings b) (deltaHistory b) v (logs b) (interval b).
Definition set_logs (v : list LogEntry) (b : Bot) : Bot :=
  mkBot (api b) (status b) (currentDelta b) (b_ethValue b) (totalTrades b)
        (lastCheck b) (settings b) (deltaHistory b) (trades b) v (interval b).
Definition set_interval (v : option nat) (b : Bot) : Bot :=
  mkBot (api b) (status b) (currentDelta b) (b_ethValue b) (totalTrades b)
        (lastCheck b) (settings b) (deltaHistory b) (trades b) (logs b) v.

(** *** The three bounded arrays *)

(** [a.push(x); if (a.length > cap) a.shift();] *)
Definition pushShift {A} (cap : nat) (a : list A) (x : A) : list A :=
  let a1 := a ++ [x] in
  if (cap <? List.length a1)%nat then tl a1 else a1.

(** [a.unshift(x); if (a.length > cap) a.pop();] *)
Definition unshiftPop {A} (cap : nat) (a : list A) (x : A) : list A :=
  let a1 := x :: a in
  if (cap <? List.length a1)%nat then removelast a1 else a1.

(** ** The exchange client (server.js, [class DeltaAPI]) *)

Module DeltaAPI.

Definition generateSignature (this : Api) (method endpoint : string)
    (payload : Piece) : M (Hmac * Z) :=
  t <- newDate ;;
  let timestamp := (t / 1000)%Z in
  let signatureData := [Lit method; Int timestamp; Lit endpoint; payload] in
  let signature := mkHmac (apiSecret this) signatureData in
  ret (signature, timestamp).

Definition getHeaders (this : Api) (method endpoint : string)
    (payload : Piece) : M Headers :=
  st <- generateSignature this method endpoint payload ;;
  ret (mkHeaders (apiKey this) (snd st) (fst st) "application/json").

(** Returns the positions, [Some []] when the response has no [result],
    and [None] (JavaScript [null]) when the request failed. *)
Definition getPositions (this : Api) : M (option (list Position)) :=
  let endpoint := "/v2/positions" in
  headers <- getHeaders this "GET" endpoint (Lit "") ;;
  response <- axiosGet (baseURL this ++ endpoint)%string headers ;;
  match response with
  | Resolved data =>
      ret (Some (match result data with Some r => r | None => [] end))
  | Rejected message =>
      effect (ConsoleError [Lit "Error fetching positions:"; Lit message]) ;;
      ret None
  end.

Definition placeFutureOrder (this : Api) (productId : Z) (size : Q)
    (side : string) : M OrderResult :=
  let endpoint := "/v2/orders" in
  let data := mkOrderData productId (Qabs size) side "market_order" "ioc" in
  let payload := Json data in
  headers <- getHeaders this "POST" endpoint payload ;;
  response <- axiosPost (baseURL this ++ endpoint)%string data headers ;;
  match response with
  | Resolved d => ret (OrderOk d)
  | Rejected message =>
      effect (ConsoleError [Lit "Error placing order:"; Lit message]) ;;
      ret (OrderFailed message)
  end.

End DeltaAPI.

(** ** The engine (server.js, [class TradingBot]) *)

(** The environment variables the constructor reads, already parsed; a
    numeric one is [None] when it is unset or empty. *)
Record ProcessEnv := mkProcessEnv {
  DELTA_API_KEY : string;
  DELTA_API_SECRET : string;
  DELTA_THRESHOLD : option Q;
  CHECK_INTERVAL : option Z;
  MIN_HEDGE_SIZE : option Q;
  ETH_FUTURE_PRODUCT_ID : option Z
}.

Module TradingBot.

Local Open Scope Q_scope.

Definition constructor (env : ProcessEnv) : Bot :=
  mkBot (mkApi (DELTA_API_KEY env) (DELTA_API_SECRET env)
               "https://api.delta.exchange")
        stopped 0 0 0%nat None
        (mkSettings
           (match DELTA_THRESHOLD env with Some v => v | None => 0.15 end)
           (inject_Z (match CHECK_INTERVAL env with Some v => v | None => 60000%Z end))
           (match MIN_HEDGE_SIZE env with Some v => v | None => 0.01 end)
           (match ETH_FUTURE_PRODUCT_ID env with Some v => v | None => 27%Z end))
        [] [] [] None.

Definition log (level : string) (message : Message) : M unit :=
  d <- newDate ;;
  let logEntry := mkLogEntry level message d in
  effect (ConsoleLog ([Lit "["; Lit level; Lit "] "] ++ message)) ;;
  modifyBot (fun this => set_logs (unshiftPop 200 (logs this) logEntry) this) ;;
  t <- newDate ;;
  effect (Emit "log" (PLog level message t)).

Definition executeHedge (currentDelta : Q) : M unit :=
  let hedgeSize := - currentDelta in
  this <- getBot ;;
  if Js.ltb (Qabs hedgeSize) (minHedgeSize (settings this)) then
    log "INFO" [Lit "⏭️ Hedge size too small ("; Fixed (Qabs hedgeSize) 4; Lit ")"]
  else
    let side := if Js.gtb hedgeSize 0 then "buy" else "sell" in
    log "WARNING" [Lit "⚠️ Delta threshold breached! (";
                   Fixed (currentDelta * 100) 2; Lit "%)"] ;;
    log "INFO" [Lit "🔄 Executing hedge: "; Lit (Js.toUpperCase side); Lit " ";
                Fixed (Qabs hedgeSize) 4; Lit " contracts"] ;;
    this <- getBot ;;
    order <- DeltaAPI.placeFutureOrder (api this)
               (ethFutureProductId (settings this)) (Qabs hedgeSize) side ;;
    if success order then
      log "INFO" [Lit "✅ Hedge successful!"] ;;
      modifyBot (fun this => set_totalTrades (S (totalTrades this)) this) ;;
      d <- newDate ;;
      modifyBot (fun this =>
        set_trades (unshiftPop 50 (trades this)
                      (mkTrade side hedgeSize currentDelta order d)) this) ;;
      this <- getBot ;;
      effect (Emit "tradeExecuted"
                (PTradeExecuted side (Qabs hedgeSize) currentDelta
                                (totalTrades this)))
    else
      log "ERROR" [Lit "❌ Hedge failed!"].

Definition checkAndHedge : M unit :=
  log "INFO" [Lit "🔍 Checking positions..."] ;;
  this <- getBot ;;
  positions <- DeltaAPI.getPositions (api this) ;;
  match positions with
  | None => log "INFO" [Lit "📭 No open positions"]
  | Some positions =>
    if (List.length positions =? 0)%nat then
      log "INFO" [Lit "📭 No open positions"]
    else
      let deltaInfo := calculatePortfolioDelta positions in
      modifyBot (set_currentDelta (deltaPercentage deltaInfo)) ;;
      modifyBot (set_ethValue (ethValue deltaInfo)) ;;
      d <- newDate ;;
      modifyBot (set_lastCheck (Some d)) ;;
      this <- getBot ;;
      t <- newDate ;;
      modifyBot (fun b =>
        set_deltaHistory
          (pushShift 100 (deltaHistory b)
             (mkHistoryEntry (currentDelta this) (totalDelta deltaInfo)
                             (b_ethValue this) (List.length positions) t)) b) ;;
      log "INFO" [Lit "📊 Delta: "; Fixed (currentDelta this * 100) 2;
                  Lit "%, ETH: $"; Fixed (b_ethValue this) 2] ;;
      effect (Emit "deltaUpdate"
                (PDeltaUpdate (currentDelta this) (b_ethValue this)
                              (lastCheck this))) ;;
      this <- getBot ;;
      if Js.geb (Qabs (currentDelta this)) (deltaThreshold (settings this)) then
        executeHedge (totalDelta deltaInfo)
      else
        log "INFO" [Lit "✅ Delta within range (";
                    Fixed (currentDelta this * 100) 2; Lit "%)"]
  end.

Definition start : M unit :=
  this <- getBot ;;
  if Status_eqb (status this) running then ret tt
  else
    modifyBot (set_status running) ;;
    log "INFO" [Lit "🚀 Personal bot started"] ;;
    this <- getBot ;;
    id <- setInterval (checkInterval (settings this)) ;;
    modifyBot (set_interval (Some id)) ;;
    spawn checkAndHedge.

Definition stop : M unit :=
  this <- getBot ;;
  match interval this with
  | Some id => clearInterval id ;; modifyBot (set_interval None)
  | None => ret tt
  end ;;
  modifyBot (set_status stopped) ;;
  log "INFO" [Lit "🛑 Bot stopped"].

(** [if (field) { ... }] on a number field of the request body. *)
Definition whenTruthy (field : option Q) (body : Q -> M unit) : M unit :=
  match field with
  | Some v => if Js.truthy v then body v else ret tt
  | None => ret tt
  end.

Definition updateSettings (newSettings : NewSettings) : M unit :=
  whenTruthy (n_deltaThreshold newSettings) (fun v =>
    modifyBot (fun this =>
      let s := settings this in
      set_settings (mkSettings v (checkInterval s) (minHedgeSize s)
                               (ethFutureProductId s)) this)) ;;
  whenTruthy (n_checkInterval newSettings) (fun v =>
    modifyBot (fun this =>
      let s := settings this in
      set_settings (mkSettings (deltaThreshold s) v (minHedgeSize s)
                               (ethFutureProductId s)) this) ;;
    this <- getBot ;;
    if Status_eqb (status this) running then stop ;; start else ret tt) ;;
  whenTruthy (n_minHedgeSize newSettings) (fun v =>
    modifyBot (fun this =>
      let s := settings this in
      set_settings (mkSettings (deltaThreshold s) (checkInterval s) v
                               (ethFutureProductId s)) this)) ;;
  log "INFO" [Lit "⚙️ Settings updated"].

Definition getRecentTrades (this : Bot) (limit : option Z) : list Trade :=
  Js.slice0 (trades this) (match limit with Some l => l | None => 50%Z end).

Definition getDeltaHistory (this : Bot) (limit : option Z) : list HistoryEntry :=
  Js.sliceFrom (deltaHistory this)
               (- match limit with Some l => l | None => 100%Z end)%Z.

Definition getRecentLogs (this : Bot) (limit : option Z) : list LogEntry :=
  Js.slice0 (logs this) (match limit with Some l => l | None => 200%Z end).

End TradingBot.

(** ** Running the engine *)

(** The wall clock moves between two turns of the event loop. *)
Definition at_time (t : Z) (w : World) : World :=
  mkWorld (bot w) t (trace w) (nextTimer w).

(** A suspended computation run to its end when nothing else happens in
    between: the reply [fetch] arrives for a GET and [order] for a POST,
    each at its own time. *)
Fixpoint feed {A : Type} (fetch : Z * AxiosResult PositionsData)
    (order : Z * AxiosResult string) (s : Susp A) (w : World) : World :=
  match s with
  | Done _ => w
  | AwaitGet k =>
      let p := k (snd fetch) (at_time (fst fetch) w) in
      feed fetch order (fst p) (snd p)
  | AwaitPost k =>
      let p := k (snd order) (at_time (fst order) w) in
      feed fetch order (fst p) (snd p)
  | Fork child rest => feed fetch order rest (feed fetch order child w)
  end.

Definition run {A : Type} (fetch : Z * AxiosResult PositionsData)
    (order : Z * AxiosResult string) (m : M A) (w : World) : World :=
  let p := m w in feed fetch order (fst p) (snd p).

(** One cycle: [checkAndHedge] from its call to its end. *)
Definition cycle (fetch : Z * AxiosResult PositionsData)
    (order : Z * AxiosResult string) (w : World) : World :=
  run fetch order TradingBot.checkAndHedge w.

(** What a run adds to the trace. *)
Definition emitted (w w' : World) : list Effect :=
  skipn (List.length (trace w)) (trace w').

(** The order bodies posted within a list of effects. *)
Definition orders (es : list Effect) : list OrderData :=
  flat_map (fun e => match e with HttpPost _ d _ => [d] | _ => [] end) es.

(** The payloads of the [deltaUpdate] events within a list of effects. *)
Definition deltaUpdates (es : list Effect) : list Payload :=
  flat_map (fun e => match e with
                     | Emit name p => if String.eqb name "deltaUpdate" then [p] else []
                     | _ => []
                     end) es.

(** A freshly constructed bot, at time 0, with nothing done yet. *)
Definition initialWorld (env : ProcessEnv) : World :=
  mkWorld (TradingBot.constructor env) 0 [] 0.

Definition exampleEnv : ProcessEnv :=
  mkProcessEnv "key" "secret" None None None None.

(** The two positions of the worked example: a future of size 2 marked at
    100 and a call option of size 1, delta 0.5, marked at 200. *)
Definition examplePositions : list Position :=
  [ mkPosition (Some 2%Q) None (Some (mkProduct (Some "future"))) (Some 100%Q);
    mkPosition (Some 1%Q) (Some 0.5%Q) (Some (mkProduct (Some "call_options")))
               (Some 200%Q) ].

(** *** What a cycle is expected to record *)

(** The positions a cycle works with: none when the request failed or the
    response had no [result]. *)
Definition fetched (f : AxiosResult PositionsData) : list Position :=
  match f with
  | Resolved d => match result d with Some ps => ps | None => [] end
  | Rejected _ => []
  end.

(** The two tests that lead to an order: [checkAndHedge]'s on the delta
    percentage and [executeHedge]'s on the hedge size. *)
Definition hedges (s : Settings) (d : DeltaInfo) : bool :=
  Js.geb (Qabs (deltaPercentage d)) (deltaThreshold s)
  && negb (Js.ltb (Qabs (- totalDelta d)) (minHedgeSize s)).

Definition sideOf (hedgeSize : Q) : string :=
  if Js.gtb hedgeSize 0 then "buy" else "sell".

(** The history entry of a cycle whose positions arrived at time [t]. *)
Definition historyEntryOf (fetch : Z * AxiosResult PositionsData)
  : option HistoryEntry :=
  match fetched (snd fetch) with
  | [] => None
  | ps =>
      let d := calculatePortfolioDelta ps in
      Some (mkHistoryEntry (deltaPercentage d) (totalDelta d) (ethValue d)
                           (List.length ps) (fst fetch))
  end.

(** The trade of a cycle, under settings [s]. *)
Definition tradeOf (s : Settings)
    (c : (Z * AxiosResult PositionsData) * (Z * AxiosResult string))
  : option Trade :=
  match fetched (snd (fst c)) with
  | [] => None
  | ps =>
      let d := calculatePortfolioDelta ps in
      if hedges s d then
        match snd (snd c) with
        | Resolved data =>
            Some (mkTrade (sideOf (- totalDelta d)) (- totalDelta d) (totalDelta d)
                          (OrderOk data) (fst (snd c)))
        | Rejected _ => None
        end
      else None
  end.

(** Cycles one after the other, each with its two replies. *)
Definition cycles
    (cs : list ((Z * AxiosResult PositionsData) * (Z * AxiosResult string)))
    (w : World) : World :=
  fold_left (fun w c => cycle (fst c) (snd c) w) cs w.

(** The effects that follow the first [deltaUpdate] event. *)
Fixpoint afterDeltaUpdate (es : list Effect) : list Effect :=
  match es with
  | [] => []
  | Emit name _ :: rest =>
      if String.eqb name "deltaUpdate" then rest else afterDeltaUpdate rest
  | _ :: rest => afterDeltaUpdate rest
  end.

(** The effects of a list that are not lines on the error console. *)
Definition withoutConsoleErrors (es : list Effect) : list Effect :=
  filter (fun e => match e with ConsoleError _ => false | _ => true end) es.

(** The timer effects of a list. *)
Definition timers (es : list Effect) : list Effect :=
  filter (fun e => match e with
                   | SetInterval _ _ | ClearInterval _ => true
                   | _ => false
                   end) es.

(** What a list of cycles appends to the history, and to the trades under
    settings [s]. *)
Definition historyEntries
    (cs : list ((Z * AxiosResult PositionsData) * (Z * AxiosResult string)))
  : list HistoryEntry :=
  flat_map (fun c => match historyEntryOf (fst c) with
                     | Some e => [e]
                     | None => []
                     end) cs.

Definition tradesMade (s : Settings)
    (cs : list ((Z * AxiosResult PositionsData) * (Z * AxiosResult string)))
  : list Trade :=
  flat_map (fun c => match tradeOf s c with Some t => [t] | None => [] end) cs.

(** A future of size 3 without mark price: notional 0, total delta 3. *)
Definition unpricedFuture : list Position :=
  [ mkPosition (Some 3%Q) None (Some (mkProduct (Some "future"))) None ].

(** A future of size 2 marked at 1: delta percentage 1. *)
Definition unhedgedFuture : list Position :=
  [ mkPosition (Some 2%Q) None (Some (mkProduct (Some "future"))) (Some 1%Q) ].

(** A hundred and one cycles, at times 1 to 101, each fetching
    [unhedgedFuture] and having its order accepted. *)
Definition manyCycles
  : list ((Z * AxiosResult PositionsData) * (Z * AxiosResult string)) :=
  map (fun n => ((Z.of_nat n, Resolved (mkPositionsData (Some unhedgedFuture))),
                 (Z.of_nat n, Resolved "ack")))
      (seq 1 101).

(** The bot after [start], before any reply has arrived. *)
Definition runningWorld : World :=
  snd (TradingBot.start (initialWorld exampleEnv)).

(** A request to [/api/settings] whose three fields are zero. *)
Definition zeroSettings : NewSettings :=
  mkNewSettings (Some 0%Q) (Some 0%Q) (Some 0%Q).

(** ** The calculator as the specification words it *)

Module Spec.

Local Open Scope Q_scope.

(** The product types of the specification. *)
Inductive ProductType := future | call_option | put_option | other.

(** How the exchange names them in [product.product_type]. *)
Definition classify (productType : string) : ProductType :=
  if String.eqb productType "future" then future
  else if String.eqb productType "call_options" then call_option
  else if String.eqb productType "put_options" then put_option
  else other.

(** Contribution of a position to the total delta: its size for a
    future, size times delta for a call or a put option, 0 otherwise. *)
Definition contribution (position : Position) : Q :=
  let size := Js.orNum (size position) 0 in
  let delta := Js.orNum (delta position) 0 in
  match classify (productTypeOf position) with
  | future => size
  | call_option | put_option => size * delta
  | other => 0
  end.

(** Contribution of a position to the notional: |size| times mark price. *)
Definition notionalOf (position : Position) : Q :=
  Qabs (Js.orNum (size position) 0) * Js.orNum (mark_price position) 0.

Definition sum (xs : list Q) : Q := fold_right Qplus 0 xs.

End Spec.

(** ** The HTTP routes and the start of the server (server.js:305-385) *)

(** The routes that reach the bot.  [/health] reads the process clock and
    memory and the socket handshake answers one client only; neither is
    modelled. *)
Inductive Route :=
| ApiStatus
| ApiTrades
| ApiDeltaHistory
| ApiLogs
| BotStart
| BotStop
| ApiSettings (body : NewSettings).

(** What [res.json] is given. *)
Inductive Response :=
| StatusJson (status : Status) (currentDelta ethValue : Q) (totalTrades : nat)
             (lastCheck : option Z) (settings : Settings)
| TradesJson (trades : list Trade)
| HistoryJson (history : list HistoryEntry)
| LogsJson (logs : list LogEntry)
| BotJson (success : bool) (status : string)
| SettingsJson (success : bool) (settings : Settings).

(** [s.repeat(n)] *)
Fixpoint strRepeat (s : string) (n : nat) : string :=
  match n with
  | O => ""
  | S n' => (s ++ strRepeat s n')%string
  end.

Module Server.

Definition handle (r : Route) : M Response :=
  match r with
  | ApiStatus =>
      this <- getBot ;;
      ret (StatusJson (status this) (currentDelta this) (b_ethValue this)
                      (totalTrades this) (lastCheck this) (settings this))
  | ApiTrades =>
      this <- getBot ;;
      ret (TradesJson (TradingBot.getRecentTrades this (Some 50%Z)))
  | ApiDeltaHistory =>
      this <- getBot ;;
      ret (HistoryJson (TradingBot.getDeltaHistory this (Some 100%Z)))
  | ApiLogs =>
      this <- getBot ;;
      ret (LogsJson (TradingBot.getRecentLogs this (Some 200%Z)))
  | BotStart =>
      TradingBot.start ;;
      ret (BotJson true "running")
  | BotStop =>
      TradingBot.stop ;;
      ret (BotJson true "stopped")
  | ApiSettings body =>
      TradingBot.updateSettings body ;;
      this <- getBot ;;
      ret (SettingsJson true (settings this))
  end.

(** The callback of [server.listen]; [port] is [process.env.PORT], [None]
    when unset or empty. *)
Definition listening (port : option Z) : M unit :=
  let PORT := match port with Some v => v | None => 3000%Z end in
  effect (ConsoleLog [Lit (strRepeat "=" 60)]) ;;
  effect (ConsoleLog [Lit "🚀 Personal Delta Trading Bot"]) ;;
  effect (ConsoleLog [Lit "📊 Dashboard: http://localhost:"; Int PORT]) ;;
  effect (ConsoleLog [Lit "🔧 API: http://localhost:"; Int PORT; Lit "/api/status"]) ;;
  effect (ConsoleLog [Lit "💚 Health: http://localhost:"; Int PORT; Lit "/health"]) ;;
  effect (ConsoleLog [Lit (strRepeat "=" 60)]) ;;
  TradingBot.start.

End Server.

(** ** The event loop *)

(** The timers that are armed after a list of effects. *)
Definition armedStep (ids : list nat) (e : Effect) : list nat :=
  match e with
  | SetInterval id _ => ids ++ [id]
  | ClearInterval id => filter (fun i => negb (Nat.eqb i id)) ids
  | _ => ids
  end.

Definition armed (es : list Effect) : list nat := fold_left armedStep es [].

(** The bot with the computations that wait for a reply. *)
Record Sys := mkSys {
  world : World;
  pending : list (Susp unit)
}.

(** The computations left waiting by a computation that stopped. *)
Fixpoint tasks (s : Susp unit) : list (Susp unit) :=
  match s with
  | Done _ => []
  | Fork child rest => tasks child ++ tasks rest
  | _ => [s]
  end.

(** The computations started, and not awaited, by a function that is not
    [async] itself. *)
Fixpoint spawned {A : Type} (s : Susp A) : list (Susp unit) :=
  match s with
  | Fork child rest => tasks child ++ spawned rest
  | _ => []
  end.

Definition removeNth {A} (i : nat) (l : list A) : list A :=
  firstn i l ++ skipn (S i) l.

(** What happens to the process, each at its time: the server starts to
    listen, a request arrives on a route, the timer with handle [id] fires,
    the reply to the request of the [i]-th waiting computation arrives. *)
Inductive Event :=
| Listen (t : Z) (port : option Z)
| Http (t : Z) (r : Route)
| Tick (t : Z) (id : nat)
| GetReply (t : Z) (i : nat) (r : AxiosResult PositionsData)
| PostReply (t : Z) (i : nat) (r : AxiosResult string).

Definition step (e : Event) (s : Sys) : Sys :=
  match e with
  | Listen t port =>
      let p := Server.listening port (at_time t (world s)) in
      mkSys (snd p) (pending s ++ spawned (fst p))
  | Http t r =>
      let p := Server.handle r (at_time t (world s)) in
      mkSys (snd p) (pending s ++ spawned (fst p))
  | Tick t id =>
      if existsb (Nat.eqb id) (armed (trace (world s))) then
        let p := TradingBot.checkAndHedge (at_time t (world s)) in
        mkSys (snd p) (pending s ++ tasks (fst p))
      else s
  | GetReply t i r =>
      match nth_error (pending s) i with
      | Some (AwaitGet k) =>
          let p := k r (at_time t (world s)) in
          mkSys (snd p) (removeNth i (pending s) ++ tasks (fst p))
      | _ => s
      end
  | PostReply t i r =>
      match nth_error (pending s) i with
      | Some (AwaitPost k) =>
          let p := k r (at_time t (world s)) in
          mkSys (snd p) (removeNth i (pending s) ++ tasks (fst p))
      | _ => s
      end
  end.

Definition steps (es : list Event) (s : Sys) : Sys :=
  fold_left (fun s e => step e s) es s.

Definition initialSys (env : ProcessEnv) : Sys :=
  mkSys (initialWorld env) [].

(** *** Invariants *)

(** The three arrays within their capacities. *)
Definition Bounded (w : World) : Prop :=
  (List.length (deltaHistory (bot w)) <= 100)%nat
  /\ (List.length (trades (bot w)) <= 50)%nat
  /\ (List.length (logs (bot w)) <= 200)%nat.

(** The armed timers are the handle the bot holds, and the bot holds one
    exactly when it is running. *)
Definition OneTimer (w : World) : Prop :=
  armed (trace w)
  = match interval (bot w) with Some id => [id] | None => [] end
  /\ (status (bot w) = running <-> interval (bot w) <> None).

Definition Inv (w : World) : Prop := Bounded w /\ OneTimer w.

(** A waiting computation keeps [P], whatever the replies and the worlds
    it is resumed in. *)
Fixpoint Safe {A : Type} (P : World -> Prop) (s : Susp A) : Prop :=
  match s with
  | Done _ => True
  | AwaitGet k => forall r w, P w -> P (snd (k r w)) /\ Safe P (fst (k r w))
  | AwaitPost k => forall r w, P w -> P (snd (k r w)) /\ Safe P (fst (k r w))
  | Fork child rest => Safe P child /\ Safe P rest
  end.

(** A computation keeps [Inv], now and when resumed. *)
Definition SafeM {A : Type} (m : M A) : Prop :=
  forall w, Safe Inv (fst (m w)) /\ (Inv w -> Inv (snd (m w))).

(** The result of a function that is not [async]: it does not wait, and
    what it started keeps [Inv]. *)
Fixpoint Sync {A : Type} (s : Susp A) : Prop :=
  match s with
  | Done _ => True
  | Fork child rest => Safe Inv child /\ Sync rest
  | _ => False
  end.

(** A change of the bot's fields that a cycle makes. *)
Definition Keeps (f : Bot -> Bot) : Prop :=
  forall b,
    status (f b) = status b
    /\ interval (f b) = interval b
    /\ ((List.length (deltaHistory b) <= 100)%nat ->
        (List.length (deltaHistory (f b)) <= 100)%nat)
    /\ ((List.length (trades b) <= 50)%nat ->
        (List.length (trades (f b)) <= 50)%nat)
    /\ ((List.length (logs b) <= 200)%nat ->
        (List.length (logs (f b)) <= 200)%nat).

(** *** Observations *)

(** The bot of a world with another status. *)
Definition withStatus (st : Status) (w : World) : World :=
  mkWorld (set_status st (bot w)) (now w) (trace w) (nextTimer w).

(** The GET requests and the [tradeExecuted] payloads of a list of
    effects. *)
Definition gets (es : list Effect) : list (string * Headers) :=
  flat_map (fun e => match e with HttpGet u h => [(u, h)] | _ => [] end) es.

Definition tradeEvents (es : list Effect) : list Payload :=
  flat_map (fun e => match e with
                     | Emit name p =>
                         if String.eqb name "tradeExecuted" then [p] else []
                     | _ => []
                     end) es.



(** The quantity an order adds to the delta: its size when it buys, the
    opposite when it sells. *)
Definition signedSize (o : OrderData) : Q :=
  if String.eqb (o_side o) "buy" then o_size o else (- o_size o)%Q.

(** What a function that is not [async] returned. *)
Fixpoint returned {A : Type} (s : Susp A) : option A :=
  match s with
  | Done a => Some a
  | Fork _ rest => returned rest
  | _ => None
  end.

(** Calls of [log] one after the other, each at its time. *)
Definition logAll (calls : list (Z * (string * Message))) (w : World) : World :=
  fold_left (fun w c =>
               snd (TradingBot.log (fst (snd c)) (snd (snd c)) (at_time (fst c) w)))
            calls w.

(** * Properties *)

(** ** Lists *)

Section Lists.

Context {A : Type}.

Lemma skipn_length_app (l r : list A) : skipn (List.length l) (l ++ r) = r.
Proof. induction l as [|a l IH]; simpl; auto. Qed.

Lemma firstn_app_firstn (a b : list A) :
  forall m n, (m <= n)%nat -> firstn m (a ++ firstn n b) = firstn m (a ++ b).
Proof.
  induction a as [|x a IH]; intros m n Hmn; simpl.
  - rewrite firstn_firstn. now rewrite Nat.min_l.
  - destruct m as [|m]; simpl; [reflexivity|].
    f_equal. apply IH. lia.
Qed.

(** One [push] followed by the conditional [shift]. *)
Lemma pushShift_skipn (cap : nat) (h : list A) (x : A) :
  (List.length h <= cap)%nat ->
  pushShift cap h x = skipn (List.length (h ++ [x]) - cap) (h ++ [x]).
Proof.
  intros Hlen. unfold pushShift.
  rewrite length_app. simpl List.length.
  destruct (Nat.ltb_spec cap (List.length h + 1)) as [Hlt|Hge].
  - replace (List.length h + 1 - cap)%nat with 1%nat by lia.
    reflexivity.
  - replace (List.length h + 1 - cap)%nat with 0%nat by lia.
    reflexivity.
Qed.

Lemma pushShift_length (cap : nat) (h : list A) (x : A) :
  (List.length h <= cap)%nat ->
  (List.length (pushShift cap h x) <= cap)%nat.
Proof.
  intros Hlen. rewrite pushShift_skipn by assumption.
  rewrite length_skipn. lia.
Qed.

Lemma pushShift_fold (cap : nat) (xs : list A) :
  forall h, (List.length h <= cap)%nat ->
  fold_left (pushShift cap) xs h
  = skipn (List.length (h ++ xs) - cap) (h ++ xs).
Proof.
  induction xs as [|x xs IH]; intros h Hlen.
  - simpl. rewrite app_nil_r.
    replace (List.length h - cap)%nat with 0%nat by lia. reflexivity.
  - simpl fold_left.
    rewrite IH by (apply pushShift_length; assumption).
    rewrite pushShift_skipn by assumption.
    rewrite length_app, length_skipn.
    remember (List.length (h ++ [x]) - cap)%nat as d eqn:Hd.
    assert (Hdl : (d <= List.length (h ++ [x]))%nat) by lia.
    replace (skipn d (h ++ [x]) ++ xs) with (skipn d ((h ++ [x]) ++ xs)).
    + rewrite skipn_skipn. rewrite <- app_assoc. simpl app.
      f_equal. rewrite !length_app in *. simpl List.length in *. lia.
    + rewrite skipn_app.
      replace (d - List.length (h ++ [x]))%nat with 0%nat by lia.
      reflexivity.
Qed.

Lemma pushShift_last (cap : nat) (h : list A) (x d : A) :
  (1 <= cap)%nat -> last (pushShift cap h x) d = x.
Proof.
  intros Hcap. unfold pushShift.
  destruct (Nat.ltb_spec cap (List.length (h ++ [x]))) as [Hlt|Hge].
  - destruct h as [|a h]; simpl in *; [lia|].
    apply last_last.
  - apply last_last.
Qed.

(** One [unshift] followed by the conditional [pop]. *)
Lemma unshiftPop_firstn (cap : nat) (h : list A) (x : A) :
  (List.length h <= cap)%nat ->
  unshiftPop cap h x = firstn cap (x :: h).
Proof.
  intros Hlen. unfold unshiftPop.
  destruct (Nat.ltb_spec cap (List.length (x :: h))) as [Hlt|Hge].
  - rewrite removelast_firstn_len. f_equal. simpl in *. lia.
  - symmetry. apply firstn_all2. assumption.
Qed.

Lemma unshiftPop_length (cap : nat) (h : list A) (x : A) :
  (List.length h <= cap)%nat ->
  (List.length (unshiftPop cap h x) <= cap)%nat.
Proof.
  intros Hlen. rewrite unshiftPop_firstn by assumption.
  rewrite length_firstn. lia.
Qed.

Lemma unshiftPop_fold (cap : nat) (xs : list A) :
  forall h, (List.length h <= cap)%nat ->
  fold_left (unshiftPop cap) xs h = firstn cap (rev xs ++ h).
Proof.
  induction xs as [|x xs IH]; intros h Hlen.
  - simpl. symmetry. apply firstn_all2. assumption.
  - simpl fold_left.
    rewrite IH by (apply unshiftPop_length; assumption).
    rewrite unshiftPop_firstn by assumption.
    rewrite firstn_app_firstn by lia.
    simpl rev. rewrite <- app_assoc. reflexivity.
Qed.

Lemma unshiftPop_head (cap : nat) (h : list A) (x : A) :
  (1 <= cap)%nat -> hd_error (unshiftPop cap h x) = Some x.
Proof.
  intros Hcap. unfold unshiftPop.
  destruct (Nat.ltb_spec cap (List.length (x :: h))) as [Hlt|Hge];
    [|reflexivity].
  destruct h as [|a h]; simpl in *; [lia|reflexivity].
Qed.

End Lists.

(** ** Evaluating the engine *)

Lemma emitted_app w w' es : trace w' = trace w ++ es -> emitted w w' = es.
Proof. unfold emitted. intros ->. apply skipn_length_app. Qed.

(** Unfolds the engine on a world given by its fields. *)
Ltac eval_js :=
  lazy [cycle run feed TradingBot.checkAndHedge TradingBot.log
       TradingBot.executeHedge TradingBot.start TradingBot.stop
       TradingBot.updateSettings TradingBot.whenTruthy
       DeltaAPI.getPositions DeltaAPI.getHeaders DeltaAPI.generateSignature
       DeltaAPI.placeFutureOrder bind bindS ret getBot modifyBot effect newDate
       setInterval clearInterval spawn
       axiosGet axiosPost fst snd at_time bot now trace nextTimer success result
       set_status set_currentDelta set_ethValue set_totalTrades set_lastCheck
       set_settings set_deltaHistory set_trades set_logs set_interval
       api status currentDelta b_ethValue totalTrades lastCheck settings
       deltaHistory trades logs interval
       deltaThreshold checkInterval minHedgeSize ethFutureProductId
       n_deltaThreshold n_checkInterval n_minHedgeSize
       Status_eqb];
  cbn [List.length Nat.eqb andb negb].

Ltac destruct_world w :=
  destruct w as [[? ? ? ? ? ? [? ? ? ?] ? ? ? ?] ? ? ?].

Ltac split_if :=
  match goal with
  | |- context [if ?c then _ else _] => destruct c eqn:?
  end.

Ltac eval_cycle := eval_js; repeat (split_if; eval_js).

(** The trace of the result is the one of the start followed by [es]. *)
Ltac trace_is :=
  apply emitted_app; cbn [trace]; repeat rewrite <- app_assoc; reflexivity.

Lemma cycle_deltaHistory fetch order w :
  deltaHistory (bot (cycle fetch order w))
  = match historyEntryOf fetch with
    | Some e => pushShift 100 (deltaHistory (bot w)) e
    | None => deltaHistory (bot w)
    end.
Proof.
  destruct fetch as [t1 [[[[|p ps]|]]|e]], order as [t2 [data|e']];
    destruct_world w; unfold historyEntryOf, fetched;
    eval_cycle; reflexivity.
Qed.

Lemma cycle_settings fetch order w :
  settings (bot (cycle fetch order w)) = settings (bot w).
Proof.
  destruct fetch as [t1 [[[[|p ps]|]]|e]], order as [t2 [data|e']];
    destruct_world w; eval_cycle; reflexivity.
Qed.

Lemma cycle_trades fetch order w :
  trades (bot (cycle fetch order w))
  = match tradeOf (settings (bot w)) (fetch, order) with
    | Some t => unshiftPop 50 (trades (bot w)) t
    | None => trades (bot w)
    end.
Proof.
  destruct fetch as [t1 [[[[|p ps]|]]|e]], order as [t2 [data|e']];
    destruct_world w; unfold tradeOf, fetched, hedges, sideOf;
    eval_cycle; reflexivity.
Qed.


(** ** Comparisons *)

Lemma geb_iff x y : Js.geb x y = true <-> (y <= x)%Q.
Proof. unfold Js.geb. apply Qle_bool_iff. Qed.

Lemma ltb_false_iff x y : Js.ltb x y = false <-> (y <= x)%Q.
Proof.
  unfold Js.ltb. rewrite negb_false_iff. apply Qle_bool_iff.
Qed.

Lemma ltb_true_iff x y : Js.ltb x y = true <-> (x < y)%Q.
Proof.
  unfold Js.ltb. rewrite negb_true_iff. split; intros H.
  - apply Qnot_le_lt. intros Hle. apply Qle_bool_iff in Hle. congruence.
  - destruct (Qle_bool y x) eqn:E; [|reflexivity].
    apply Qle_bool_iff in E. exfalso. exact (Qlt_not_le _ _ H E).
Qed.

Lemma truthy_zero x : (x == 0)%Q -> Js.truthy x = false.
Proof.
  intros H. unfold Js.truthy. apply negb_false_iff. now apply Qeq_bool_iff.
Qed.

Lemma hedges_iff s d :
  hedges s d = true
  <-> (deltaThreshold s <= Qabs (deltaPercentage d))%Q
      /\ (minHedgeSize s <= Qabs (- totalDelta d))%Q.
Proof.
  unfold hedges. rewrite andb_true_iff, negb_true_iff, geb_iff, ltb_false_iff.
  reflexivity.
Qed.

(** ** The calculator *)

Lemma forEachBody_spec a b p :
  forEachBody (a, b) p = ((a + Spec.contribution p)%Q, (b + Spec.notionalOf p)%Q).
Proof.
  unfold forEachBody, Spec.contribution, Spec.notionalOf, Spec.classify,
    Js.includes.
  cbn [existsb].
  destruct (String.eqb (productTypeOf p) "future");
    destruct (String.eqb (productTypeOf p) "call_options");
    destruct (String.eqb (productTypeOf p) "put_options"); reflexivity.
Qed.

Lemma fold_forEachBody ps : forall a b,
  (fst (fold_left forEachBody ps (a, b))
   == a + Spec.sum (map Spec.contribution ps))%Q
  /\ (snd (fold_left forEachBody ps (a, b))
      == b + Spec.sum (map Spec.notionalOf ps))%Q.
Proof.
  induction ps as [|p ps IH]; intros a b.
  - cbn. split; ring.
  - cbn [fold_left map]. rewrite forEachBody_spec.
    destruct (IH (a + Spec.contribution p)%Q (b + Spec.notionalOf p)%Q)
      as [IHd IHn].
    rewrite IHd, IHn. unfold Spec.sum. cbn [fold_right]. split; ring.
Qed.

Lemma calculate_fields ps :
  totalDelta (calculatePortfolioDelta ps)
  = fst (fold_left forEachBody ps (0, 0)%Q)
  /\ ethValue (calculatePortfolioDelta ps)
     = snd (fold_left forEachBody ps (0, 0)%Q)
  /\ deltaPercentage (calculatePortfolioDelta ps)
     = (if Js.gtb (ethValue (calculatePortfolioDelta ps)) 0
        then totalDelta (calculatePortfolioDelta ps)
             / ethValue (calculatePortfolioDelta ps)
        else 0)%Q.
Proof.
  unfold calculatePortfolioDelta.
  destruct (fold_left forEachBody ps (0, 0)%Q) as [td ev]. cbn. auto.
Qed.

(** C2. On the worked example (a future of size 2 marked at 100, a call
    option of size 1 with delta 0.5 marked at 200)
    [calculatePortfolioDelta] returns a total delta of 2.5, a notional of
    400 and a delta percentage of 0.00625.  For every list of positions the
    total delta is the sum of the contributions of the positions, where a
    position contributes its size when it is a future, size times delta when
    it is a call or a put option and 0 otherwise, and the notional is the
    sum of |size| times mark price.  The product types are the exchange's
    names ['future'], ['call_options'] and ['put_options']. *)
Theorem exposure_example_and_contributions :
  ((totalDelta (calculatePortfolioDelta examplePositions) == 2.5)%Q
   /\ (ethValue (calculatePortfolioDelta examplePositions) == 400)%Q
   /\ (deltaPercentage (calculatePortfolioDelta examplePositions) == 0.00625)%Q)
  /\ (forall ps,
        (totalDelta (calculatePortfolioDelta ps)
         == Spec.sum (map Spec.contribution ps))%Q
        /\ (ethValue (calculatePortfolioDelta ps)
            == Spec.sum (map Spec.notionalOf ps))%Q)
  /\ (Spec.classify "future" = Spec.future
      /\ Spec.classify "call_options" = Spec.call_option
      /\ Spec.classify "put_options" = Spec.put_option).
Proof.
  split; [|split].
  - repeat split; vm_compute; reflexivity.
  - intros ps.
    destruct (calculate_fields ps) as [-> [-> _]].
    destruct (fold_forEachBody ps 0 0)%Q as [Hd Hn].
    rewrite Hd, Hn. split; ring.
  - repeat split.
Qed.

(** C6. On the empty list [calculatePortfolioDelta] returns total delta 0,
    notional 0 and delta percentage 0; and whenever the notional of a list
    of positions is zero the delta percentage is the constant 0: the
    division is not evaluated. *)
Theorem exposure_empty_and_zero_notional :
  calculatePortfolioDelta [] = mkDeltaInfo 0 0 0
  /\ forall ps,
       (ethValue (calculatePortfolioDelta ps) == 0)%Q ->
       deltaPercentage (calculatePortfolioDelta ps) = 0%Q.
Proof.
  split; [reflexivity|].
  intros ps H.
  destruct (calculate_fields ps) as [_ [_ ->]].
  destruct (Js.gtb (ethValue (calculatePortfolioDelta ps)) 0) eqn:E;
    [|reflexivity].
  unfold Js.gtb in E. apply ltb_true_iff in E.
  rewrite H in E. exfalso. exact (Qlt_irrefl 0 E).
Qed.

Lemma exposure_empty_and_zero_notional_witness :
  (ethValue (calculatePortfolioDelta unpricedFuture) == 0)%Q
  /\ (totalDelta (calculatePortfolioDelta unpricedFuture) == 3)%Q
  /\ deltaPercentage (calculatePortfolioDelta unpricedFuture) = 0%Q.
Proof.
  split; [vm_compute; reflexivity|].
  split; [vm_compute; reflexivity|].
  apply (proj2 exposure_empty_and_zero_notional).
  vm_compute. reflexivity.
Defined.

(** ** The order request *)

(** C3 (amended). For every product id, size and side, [placeFutureOrder]
    posts exactly one body, with that product id, the absolute value of the
    size, that side, order type ["market_order"] and time in force
    ["ioc"]. *)
Theorem order_body this productId size side w :
  orders (emitted w (snd (DeltaAPI.placeFutureOrder this productId size side w)))
  = [mkOrderData productId (Qabs size) side "market_order" "ioc"].
Proof.
  destruct w as [b n tr nt]. eval_js.
  erewrite emitted_app by (cbn [trace]; reflexivity).
  reflexivity.
Qed.

(** C3 as stated fails: the body posted for product 27, size 1, side
    ["buy"] does not carry the time in force ["immediate_or_cancel"]. *)
Lemma order_body_counterexample :
  orders (emitted (initialWorld exampleEnv)
            (snd (DeltaAPI.placeFutureOrder (api (bot (initialWorld exampleEnv)))
                    27 1 "buy" (initialWorld exampleEnv))))
  <> [mkOrderData 27 (Qabs 1) "buy" "market_order" "immediate_or_cancel"].
Proof. vm_compute. intros H. discriminate H. Qed.

(** ** One cycle *)

(** The orders posted by a cycle. *)
Lemma cycle_orders fetch order w :
  orders (emitted w (cycle fetch order w))
  = match fetched (snd fetch) with
    | [] => []
    | ps =>
        let d := calculatePortfolioDelta ps in
        if hedges (settings (bot w)) d then
          [mkOrderData (ethFutureProductId (settings (bot w)))
                       (Qabs (Qabs (- totalDelta d)))
                       (sideOf (- totalDelta d)) "market_order" "ioc"]
        else []
    end.
Proof.
  destruct fetch as [t1 [[[[|p ps]|]]|e]], order as [t2 [data|e']];
    destruct_world w; unfold fetched, hedges, sideOf;
    eval_cycle;
    (erewrite emitted_app by (cbn [trace]; repeat rewrite <- app_assoc; reflexivity));
    reflexivity.
Qed.

Lemma cycle_totalTrades fetch order w :
  totalTrades (bot (cycle fetch order w))
  = match tradeOf (settings (bot w)) (fetch, order) with
    | Some _ => S (totalTrades (bot w))
    | None => totalTrades (bot w)
    end.
Proof.
  destruct fetch as [t1 [[[[|p ps]|]]|e]], order as [t2 [data|e']];
    destruct_world w; unfold tradeOf, fetched, hedges, sideOf;
    eval_cycle; reflexivity.
Qed.

(** The [deltaUpdate] events of a cycle. *)
Lemma cycle_deltaUpdates fetch order w :
  deltaUpdates (emitted w (cycle fetch order w))
  = match fetched (snd fetch) with
    | [] => []
    | ps =>
        let d := calculatePortfolioDelta ps in
        [PDeltaUpdate (deltaPercentage d) (ethValue d) (Some (fst fetch))]
    end.
Proof.
  destruct fetch as [t1 [[[[|p ps]|]]|e]], order as [t2 [data|e']];
    destruct_world w; unfold fetched;
    eval_cycle;
    (erewrite emitted_app by (cbn [trace]; repeat rewrite <- app_assoc; reflexivity));
    reflexivity.
Qed.

(** What a cycle that reaches the decision and does not hedge does after
    the [deltaUpdate] event: one call of [log] at level INFO. *)
Lemma cycle_no_hedge t1 p ps order w :
  let d := calculatePortfolioDelta (p :: ps) in
  let w' := cycle (t1, Resolved (mkPositionsData (Some (p :: ps)))) order w in
  hedges (settings (bot w)) d = false ->
  exists msg,
    afterDeltaUpdate (emitted w w')
    = [ConsoleLog ([Lit "["; Lit "INFO"; Lit "] "] ++ msg);
       Emit "log" (PLog "INFO" msg t1)]
    /\ hd_error (logs (bot w')) = Some (mkLogEntry "INFO" msg t1).
Proof.
  destruct order as [t2 o]. destruct_world w.
  cbv zeta. unfold hedges.
  cbn [settings bot deltaThreshold minHedgeSize]. intros H.
  eval_cycle; cbn [andb negb] in H; try discriminate H;
    eexists;
    (erewrite emitted_app by (cbn [trace]; repeat rewrite <- app_assoc; reflexivity));
    (split; [reflexivity|]);
    apply unshiftPop_head; lia.
Qed.

(** C1. In a cycle that fetched a non-empty list of positions, with
    exposure [d] and settings [s], an order is posted exactly when
    |deltaPercentage| >= deltaThreshold and |hedgeSize| >= minHedgeSize,
    where hedgeSize = -totalDelta, and then exactly one is posted.  When
    |deltaPercentage| < deltaThreshold or |hedgeSize| < minHedgeSize no
    order is posted, no trade is recorded, and what follows the
    [deltaUpdate] event is a single call of [log] at level INFO. *)
Theorem hedge_submitted_iff w t1 ps t2 o :
  ps <> [] ->
  let d := calculatePortfolioDelta ps in
  let s := settings (bot w) in
  let w' := cycle (t1, Resolved (mkPositionsData (Some ps))) (t2, o) w in
  let hedgeSize := (- totalDelta d)%Q in
  (orders (emitted w w') <> []
   <-> (deltaThreshold s <= Qabs (deltaPercentage d))%Q
       /\ (minHedgeSize s <= Qabs hedgeSize)%Q)
  /\ ((deltaThreshold s <= Qabs (deltaPercentage d))%Q
      /\ (minHedgeSize s <= Qabs hedgeSize)%Q ->
      List.length (orders (emitted w w')) = 1%nat)
  /\ ((Qabs (deltaPercentage d) < deltaThreshold s)%Q
      \/ (Qabs hedgeSize < minHedgeSize s)%Q ->
      orders (emitted w w') = []
      /\ trades (bot w') = trades (bot w)
      /\ totalTrades (bot w') = totalTrades (bot w)
      /\ exists msg,
           afterDeltaUpdate (emitted w w')
           = [ConsoleLog ([Lit "["; Lit "INFO"; Lit "] "] ++ msg);
              Emit "log" (PLog "INFO" msg t1)]).
Proof.
  intros Hps d s w' hedgeSize.
  destruct ps as [|p ps]; [congruence|].
  assert (Horders := cycle_orders
            (t1, Resolved (mkPositionsData (Some (p :: ps)))) (t2, o) w).
  cbn [fetched snd result] in Horders. cbv zeta in Horders.
  fold d s w' in Horders.
  pose proof (hedges_iff s d) as Hiff. fold hedgeSize in Hiff.
  split; [|split].
  - rewrite Horders. destruct (hedges s d).
    + split; [intros _; now apply Hiff | intros _; discriminate].
    + split; [congruence|]. intros H. apply Hiff in H. discriminate H.
  - intros H. apply Hiff in H. rewrite Horders, H. reflexivity.
  - intros H.
    assert (Hno : hedges s d = false).
    { apply not_true_is_false. intros E.
      apply Hiff in E. destruct E as [E1 E2].
      destruct H as [H|H]; exfalso;
        [exact (Qlt_not_le _ _ H E1) | exact (Qlt_not_le _ _ H E2)]. }
    split; [rewrite Horders, Hno; reflexivity|].
    split.
    { unfold w'. rewrite cycle_trades. unfold tradeOf.
      cbn [fetched fst snd result]. cbv zeta. fold d s. now rewrite Hno. }
    split.
    { unfold w'. rewrite cycle_totalTrades. unfold tradeOf.
      cbn [fetched fst snd result]. cbv zeta. fold d s. now rewrite Hno. }
    destruct (cycle_no_hedge t1 p ps (t2, o) w Hno) as [msg [Hmsg _]].
    exists msg. exact Hmsg.
Qed.

Lemma hedge_submitted_iff_witness :
  unhedgedFuture <> []
  /\ List.length
       (orders (emitted (initialWorld exampleEnv)
                  (cycle (5%Z, Resolved (mkPositionsData (Some unhedgedFuture)))
                         (9%Z, Resolved "ack") (initialWorld exampleEnv))))
     = 1%nat
  /\ orders (emitted (initialWorld exampleEnv)
               (cycle (5%Z, Resolved (mkPositionsData (Some examplePositions)))
                      (9%Z, Resolved "ack") (initialWorld exampleEnv)))
     = [].
Proof.
  assert (H1 : unhedgedFuture <> []) by discriminate.
  assert (H2 : examplePositions <> []) by discriminate.
  split; [exact H1|]. split.
  - pose proof (hedge_submitted_iff (initialWorld exampleEnv) 5 unhedgedFuture
                  9 (Resolved "ack") H1) as X.
    cbv zeta in X. destruct X as [_ [X _]]. apply X.
    split; apply Qle_bool_iff; vm_compute; reflexivity.
  - pose proof (hedge_submitted_iff (initialWorld exampleEnv) 5 examplePositions
                  9 (Resolved "ack") H2) as X.
    cbv zeta in X. destruct X as [_ [_ X]]. apply X.
    left. apply ltb_true_iff. vm_compute. reflexivity.
Defined.

(** ** Fetch failures *)

(** C4 (amended). A cycle whose request for the positions fails writes
    the line "Error fetching positions:" with the error's message on the
    error console, and then does what a cycle that fetched an empty list
    does: the bot ends in the same state, with the same INFO entry
    "No open positions" at the head of the log, every other field being
    untouched, and the effects are the same once the console line is left
    out. *)
Theorem fetch_failure_logged_as_no_positions w t e order :
  let failed := cycle (t, Rejected e) order w in
  let empty := cycle (t, Resolved (mkPositionsData (Some []))) order w in
  bot failed = bot empty
  /\ hd_error (logs (bot failed))
     = Some (mkLogEntry "INFO" [Lit "📭 No open positions"] t)
  /\ bot failed = set_logs (logs (bot failed)) (bot w)
  /\ In (ConsoleError [Lit "Error fetching positions:"; Lit e])
        (emitted w failed)
  /\ withoutConsoleErrors (emitted w failed) = emitted w empty.
Proof.
  destruct order as [t2 o]. destruct_world w. eval_cycle.
  split; [reflexivity|].
  split; [apply unshiftPop_head; lia|].
  split; [reflexivity|].
  erewrite !emitted_app
    by (cbn [trace]; repeat rewrite <- app_assoc; reflexivity).
  split; [|reflexivity].
  cbn. auto 10.
Qed.

(** C4 as stated fails: after a cycle whose request timed out, the log
    holds the entry "No open positions", and the log is the one of a cycle
    that fetched an empty list. *)
Lemma fetch_failure_counterexample :
  In (mkLogEntry "INFO" [Lit "📭 No open positions"] 5)
     (logs (bot (cycle (5%Z, Rejected "timeout") (9%Z, Resolved "ack")
                       (initialWorld exampleEnv))))
  /\ logs (bot (cycle (5%Z, Rejected "timeout") (9%Z, Resolved "ack")
                      (initialWorld exampleEnv)))
     = logs (bot (cycle (5%Z, Resolved (mkPositionsData (Some [])))
                        (9%Z, Resolved "ack") (initialWorld exampleEnv))).
Proof. split; [left; reflexivity | reflexivity]. Qed.

(** ** The deltaUpdate event *)

(** C7 (amended). A cycle that fetched a non-empty list of positions emits
    exactly one [deltaUpdate] event, carrying the delta percentage, the
    notional and the time of the check that the cycle stored in the bot,
    whatever the thresholds and the reply to the order; a cycle whose
    request failed or that fetched no position emits none. *)
Theorem delta_update_per_cycle fetch order w :
  let w' := cycle fetch order w in
  (fetched (snd fetch) <> [] ->
   let d := calculatePortfolioDelta (fetched (snd fetch)) in
   deltaUpdates (emitted w w')
   = [PDeltaUpdate (deltaPercentage d) (ethValue d) (Some (fst fetch))]
   /\ currentDelta (bot w') = deltaPercentage d
   /\ b_ethValue (bot w') = ethValue d
   /\ lastCheck (bot w') = Some (fst fetch))
  /\ (fetched (snd fetch) = [] -> deltaUpdates (emitted w w') = []).
Proof.
  intros w'. subst w'. split; intros H.
  - cbv zeta. rewrite cycle_deltaUpdates.
    destruct fetch as [t1 [[[[|p ps]|]]|e]]; cbn [fetched snd result] in *;
      try congruence.
    split; [reflexivity|].
    destruct order as [t2 [data|e']]; destruct_world w;
      eval_cycle; repeat split; reflexivity.
  - rewrite cycle_deltaUpdates, H. reflexivity.
Qed.

Lemma delta_update_per_cycle_witness :
  deltaUpdates
    (emitted (initialWorld exampleEnv)
       (cycle (5%Z, Resolved (mkPositionsData (Some unhedgedFuture)))
              (9%Z, Rejected "rejected") (initialWorld exampleEnv)))
  = [PDeltaUpdate (deltaPercentage (calculatePortfolioDelta unhedgedFuture))
                  (ethValue (calculatePortfolioDelta unhedgedFuture)) (Some 5%Z)]
  /\ deltaUpdates
       (emitted (initialWorld exampleEnv)
          (cycle (5%Z, Resolved (mkPositionsData None))
                 (9%Z, Resolved "ack") (initialWorld exampleEnv)))
     = [].
Proof.
  split.
  - pose proof (delta_update_per_cycle
                  (5%Z, Resolved (mkPositionsData (Some unhedgedFuture)))
                  (9%Z, Rejected "rejected") (initialWorld exampleEnv)) as X.
    cbv zeta in X. destruct X as [X _].
    apply X. discriminate.
  - pose proof (delta_update_per_cycle
                  (5%Z, Resolved (mkPositionsData None))
                  (9%Z, Resolved "ack") (initialWorld exampleEnv)) as X.
    cbv zeta in X. destruct X as [_ X].
    apply X. reflexivity.
Defined.

(** C7 as stated fails: a cycle whose request timed out, and a cycle that
    fetched an empty list, emit no [deltaUpdate] event. *)
Lemma delta_update_counterexample :
  List.length
    (deltaUpdates
       (emitted (initialWorld exampleEnv)
          (cycle (5%Z, Rejected "timeout") (9%Z, Resolved "ack")
                 (initialWorld exampleEnv))))
  <> 1%nat
  /\ List.length
       (deltaUpdates
          (emitted (initialWorld exampleEnv)
             (cycle (5%Z, Resolved (mkPositionsData (Some [])))
                    (9%Z, Resolved "ack") (initialWorld exampleEnv))))
     <> 1%nat.
Proof. split; vm_compute; discriminate. Qed.

(** ** Failed orders and trades *)

(** C5. For every call of [executeHedge], run to its end with the reply
    [order] to the order it may post: when the reply is a failure the
    trades and [totalTrades] are left as they were, and if an order was
    posted the head of the log is the ERROR entry "Hedge failed!"; a trade
    is recorded, and [totalTrades] incremented, if and only if an order was
    posted and the reply is a success, and the trade carries that reply. *)
Theorem failed_order_leaves_trades fetch order currentDelta w :
  let w' := run fetch order (TradingBot.executeHedge currentDelta) w in
  let posted := orders (emitted w w') in
  (forall e, snd order = Rejected e ->
     trades (bot w') = trades (bot w)
     /\ totalTrades (bot w') = totalTrades (bot w)
     /\ (posted <> [] ->
         hd_error (logs (bot w'))
         = Some (mkLogEntry "ERROR" [Lit "❌ Hedge failed!"] (fst order))))
  /\ (totalTrades (bot w') = S (totalTrades (bot w))
      <-> posted <> [] /\ exists data, snd order = Resolved data)
  /\ (forall data, posted <> [] -> snd order = Resolved data ->
        trades (bot w')
        = unshiftPop 50 (trades (bot w))
            (mkTrade (sideOf (- currentDelta)) (- currentDelta) currentDelta
                     (OrderOk data) (fst order)))
  /\ (posted = [] -> trades (bot w') = trades (bot w)).
Proof.
  destruct order as [t2 [data|e']]; destruct_world w; unfold sideOf;
    cbv zeta; eval_cycle;
    (erewrite emitted_app by (cbn [trace]; repeat rewrite <- app_assoc; reflexivity));
    cbn [orders flat_map app];
    repeat (first [split | intro]);
    repeat match goal with
           | H : _ /\ _ |- _ => destruct H
           | H : ex _ |- _ => destruct H
           end;
    try congruence; try reflexivity; try (exfalso; lia);
    try (eexists; reflexivity);
    apply unshiftPop_head; lia.
Qed.

Lemma failed_order_leaves_trades_witness :
  trades (bot (run (5%Z, Rejected "unused") (9%Z, Rejected "insufficient margin")
                   (TradingBot.executeHedge 2) (initialWorld exampleEnv)))
  = []
  /\ totalTrades (bot (run (5%Z, Rejected "unused")
                           (9%Z, Rejected "insufficient margin")
                           (TradingBot.executeHedge 2) (initialWorld exampleEnv)))
     = 0%nat
  /\ hd_error (logs (bot (run (5%Z, Rejected "unused")
                              (9%Z, Rejected "insufficient margin")
                              (TradingBot.executeHedge 2)
                              (initialWorld exampleEnv))))
     = Some (mkLogEntry "ERROR" [Lit "❌ Hedge failed!"] 9).
Proof.
  pose proof (failed_order_leaves_trades (5%Z, Rejected "unused")
                (9%Z, Rejected "insufficient margin") 2
                (initialWorld exampleEnv)) as X.
  cbv zeta in X. destruct X as [X _].
  destruct (X "insufficient margin" eq_refl) as [A [B C]].
  split; [exact A|]. split; [exact B|].
  apply C. vm_compute. discriminate.
Defined.

(** ** The bounded buffers *)

Lemma cycles_deltaHistory cs : forall w,
  deltaHistory (bot (cycles cs w))
  = fold_left (pushShift 100) (historyEntries cs) (deltaHistory (bot w)).
Proof.
  unfold cycles, historyEntries.
  induction cs as [|c cs IH]; intros w; [reflexivity|].
  cbn [fold_left flat_map]. rewrite IH, fold_left_app. f_equal.
  destruct c as [fetch order]. cbn [fst snd].
  rewrite cycle_deltaHistory.
  destruct (historyEntryOf fetch); reflexivity.
Qed.

Lemma cycles_settings cs : forall w,
  settings (bot (cycles cs w)) = settings (bot w).
Proof.
  unfold cycles.
  induction cs as [|c cs IH]; intros w; [reflexivity|].
  cbn [fold_left]. rewrite IH. apply cycle_settings.
Qed.

Lemma cycles_trades cs : forall w,
  trades (bot (cycles cs w))
  = fold_left (unshiftPop 50) (tradesMade (settings (bot w)) cs)
              (trades (bot w)).
Proof.
  unfold cycles, tradesMade.
  induction cs as [|c cs IH]; intros w; [reflexivity|].
  cbn [fold_left flat_map]. rewrite IH, fold_left_app, cycle_settings. f_equal.
  destruct c as [fetch order]. cbn [fst snd].
  rewrite cycle_trades.
  destruct (tradeOf (settings (bot w)) (fetch, order)); reflexivity.
Qed.

(** C8. Let cycles run one after the other from a bot whose history holds
    at most 100 entries.  The history then holds the last 100 (or fewer)
    of the old entries followed by the appended ones, in the order of
    insertion: it never holds more than 100 entries and what is missing is
    the oldest.  After every cycle that appends an entry, that entry is the
    last of the history. *)
Theorem history_bounded cs w :
  (List.length (deltaHistory (bot w)) <= 100)%nat ->
  let all := deltaHistory (bot w) ++ historyEntries cs in
  deltaHistory (bot (cycles cs w)) = skipn (List.length all - 100) all
  /\ (List.length (deltaHistory (bot (cycles cs w))) <= 100)%nat
  /\ (forall fetch order e d,
        historyEntryOf fetch = Some e ->
        last (deltaHistory (bot (cycle fetch order (cycles cs w)))) d = e).
Proof.
  intros Hlen all.
  assert (Heq : deltaHistory (bot (cycles cs w))
                = skipn (List.length all - 100) all).
  { rewrite cycles_deltaHistory. now apply pushShift_fold. }
  split; [exact Heq|]. split.
  - rewrite Heq, length_skipn. lia.
  - intros fetch order e d He.
    rewrite cycle_deltaHistory, He. apply pushShift_last. lia.
Qed.

(** C9. Let cycles run one after the other from a bot that holds at most
    50 trades.  The trades are then the 50 (or fewer) first of the trades
    made, newest first, followed by the old ones: never more than 50, and
    what is missing is the oldest, at the tail.  After every cycle that
    makes a trade, that trade is at index 0 and is the first element that
    [getRecentTrades] returns. *)
Theorem trades_bounded cs w :
  (List.length (trades (bot w)) <= 50)%nat ->
  let s := settings (bot w) in
  trades (bot (cycles cs w))
  = firstn 50 (rev (tradesMade s cs) ++ trades (bot w))
  /\ (List.length (trades (bot (cycles cs w))) <= 50)%nat
  /\ (forall c t,
        tradeOf s c = Some t ->
        let w' := cycle (fst c) (snd c) (cycles cs w) in
        nth_error (trades (bot w')) 0 = Some t
        /\ hd_error (TradingBot.getRecentTrades (bot w') None) = Some t).
Proof.
  intros Hlen s.
  assert (Heq : trades (bot (cycles cs w))
                = firstn 50 (rev (tradesMade s cs) ++ trades (bot w))).
  { rewrite cycles_trades. now apply unshiftPop_fold. }
  split; [exact Heq|]. split.
  - rewrite Heq, length_firstn. lia.
  - intros [fetch order] t Ht w'. subst w'. cbn [fst snd].
    unfold TradingBot.getRecentTrades.
    rewrite cycle_trades, cycles_settings. fold s. rewrite Ht.
    pose proof (unshiftPop_head 50 (trades (bot (cycles cs w))) t) as Hhd.
    destruct (unshiftPop 50 (trades (bot (cycles cs w))) t) as [|x l].
    + cbn in Hhd. discriminate Hhd; lia.
    + cbn in Hhd. assert (Hx : Some x = Some t) by (apply Hhd; lia).
      injection Hx as ->. split; reflexivity.
Qed.

Lemma history_bounded_witness :
  (List.length (deltaHistory (bot (initialWorld exampleEnv))) <= 100)%nat
  /\ deltaHistory (bot (cycles manyCycles (initialWorld exampleEnv)))
     = skipn 1 (historyEntries manyCycles)
  /\ List.length (historyEntries manyCycles) = 101%nat.
Proof.
  assert (H : (List.length (deltaHistory (bot (initialWorld exampleEnv)))
               <= 100)%nat) by (cbn; lia).
  split; [exact H|]. split; [|reflexivity].
  exact (proj1 (history_bounded manyCycles (initialWorld exampleEnv) H)).
Defined.

Lemma trades_bounded_witness :
  (List.length (trades (bot (initialWorld exampleEnv))) <= 50)%nat
  /\ trades (bot (cycles manyCycles (initialWorld exampleEnv)))
     = firstn 50 (rev (tradesMade (settings (bot (initialWorld exampleEnv)))
                                  manyCycles))
  /\ List.length (tradesMade (settings (bot (initialWorld exampleEnv)))
                             manyCycles) = 101%nat.
Proof.
  assert (H : (List.length (trades (bot (initialWorld exampleEnv))) <= 50)%nat)
    by (cbn; lia).
  split; [exact H|]. split; [|vm_compute; reflexivity].
  rewrite <- (app_nil_r (rev _)).
  exact (proj1 (trades_bounded manyCycles (initialWorld exampleEnv) H)).
Defined.

(** ** Settings *)

(** C10. In a call of [updateSettings], a field of the request that is
    zero leaves the corresponding setting as it was: [deltaThreshold],
    [minHedgeSize], and [checkInterval]; for a zero [checkInterval] the
    bot is not stopped and started again: no timer is cleared or armed, the
    status and the timer handle are unchanged and no cycle is started.  The
    call is not rejected: it returns after logging "Settings updated". *)
Theorem zero_settings_ignored newSettings w :
  let w' := snd (TradingBot.updateSettings newSettings w) in
  (forall z, n_deltaThreshold newSettings = Some z -> (z == 0)%Q ->
     deltaThreshold (settings (bot w')) = deltaThreshold (settings (bot w)))
  /\ (forall z, n_minHedgeSize newSettings = Some z -> (z == 0)%Q ->
        minHedgeSize (settings (bot w')) = minHedgeSize (settings (bot w)))
  /\ (forall z, n_checkInterval newSettings = Some z -> (z == 0)%Q ->
        checkInterval (settings (bot w')) = checkInterval (settings (bot w))
        /\ status (bot w') = status (bot w)
        /\ interval (bot w') = interval (bot w)
        /\ timers (emitted w w') = []
        /\ fst (TradingBot.updateSettings newSettings w) = Done tt)
  /\ hd_error (logs (bot w'))
     = Some (mkLogEntry "INFO" [Lit "⚙️ Settings updated"] (now w)).
Proof.
  cbv zeta. destruct newSettings as [dt ci mh].
  cbn [n_deltaThreshold n_checkInterval n_minHedgeSize].
  split; [|split; [|split]].
  - intros z -> Hz.
    cbv beta iota delta [TradingBot.updateSettings TradingBot.whenTruthy
                         n_deltaThreshold n_checkInterval n_minHedgeSize].
    rewrite (truthy_zero z Hz).
    destruct ci as [ci|], mh as [mh|];
      destruct w as [[? [|] ? ? ? ? [? ? ? ?] ? ? ? [?|]] ? ? ?];
      eval_cycle; reflexivity.
  - intros z -> Hz.
    cbv beta iota delta [TradingBot.updateSettings TradingBot.whenTruthy
                         n_deltaThreshold n_checkInterval n_minHedgeSize].
    rewrite (truthy_zero z Hz).
    destruct dt as [dt|], ci as [ci|];
      destruct w as [[? [|] ? ? ? ? [? ? ? ?] ? ? ? [?|]] ? ? ?];
      eval_cycle; reflexivity.
  - intros z -> Hz.
    cbv beta iota delta [TradingBot.updateSettings TradingBot.whenTruthy
                         n_deltaThreshold n_checkInterval n_minHedgeSize].
    rewrite (truthy_zero z Hz).
    destruct dt as [dt|], mh as [mh|]; destruct_world w;
      eval_cycle;
      (erewrite emitted_app
         by (cbn [trace]; repeat rewrite <- app_assoc; reflexivity));
      repeat split.
  - destruct dt as [dt|], ci as [ci|], mh as [mh|];
      destruct w as [[? [|] ? ? ? ? [? ? ? ?] ? ? ? [?|]] ? ? ?];
      eval_cycle; apply unshiftPop_head; lia.
Qed.

Lemma zero_settings_ignored_witness :
  deltaThreshold (settings (bot (snd (TradingBot.updateSettings zeroSettings
                                        runningWorld))))
  = 0.15%Q
  /\ minHedgeSize (settings (bot (snd (TradingBot.updateSettings zeroSettings
                                         runningWorld))))
     = 0.01%Q
  /\ checkInterval (settings (bot (snd (TradingBot.updateSettings zeroSettings
                                          runningWorld))))
     = 60000%Q
  /\ status (bot (snd (TradingBot.updateSettings zeroSettings runningWorld)))
     = running
  /\ interval (bot (snd (TradingBot.updateSettings zeroSettings runningWorld)))
     = Some 0%nat.
Proof.
  pose proof (zero_settings_ignored zeroSettings runningWorld) as X.
  cbv zeta in X. destruct X as [A [B [C _]]].
  split; [exact (A 0%Q eq_refl (Qeq_refl 0))|].
  split; [exact (B 0%Q eq_refl (Qeq_refl 0))|].
  destruct (C 0%Q eq_refl (Qeq_refl 0)) as [C1 [C2 [C3 _]]].
  split; [exact C1|]. split; [exact C2|exact C3].
Defined.

(** ** Invariants of the event loop *)

Lemma armed_app es e : armed (es ++ [e]) = armedStep (armed es) e.
Proof. unfold armed. now rewrite fold_left_app. Qed.

Lemma Inv_at_time t w : Inv w -> Inv (at_time t w).
Proof. destruct w; exact (fun H => H). Qed.

Lemma tasks_safe P : forall s : Susp unit, Safe P s -> Forall (Safe P) (tasks s).
Proof.
  fix IH 1. intros [a|k|k|child rest] H; cbn [tasks].
  - constructor.
  - constructor; [exact H | constructor].
  - constructor; [exact H | constructor].
  - destruct H as [Hc Hr]. apply Forall_app. split; apply IH; assumption.
Qed.

Lemma spawned_safe {A : Type} : forall s : Susp A,
  Sync s -> Forall (Safe Inv) (spawned s).
Proof.
  fix IH 1. intros [a|k|k|child rest] H; cbn [spawned]; try constructor.
  destruct H as [Hc Hr]. apply Forall_app. split.
  - now apply tasks_safe.
  - now apply IH.
Qed.

Lemma bindS_safe {A B : Type} (f : A -> M B) :
  (forall a, SafeM (f a)) ->
  forall (s : Susp A) (w : World),
    Safe Inv s ->
    Safe Inv (fst (bindS s f w)) /\ (Inv w -> Inv (snd (bindS s f w))).
Proof.
  intros Hf. fix IH 1. intros [a|k|k|child rest] w Hs; cbn [bindS].
  - apply Hf.
  - cbn [fst snd Safe]. split; [|auto].
    intros r w' Hw'. destruct (Hs r w' Hw') as [H1 H2].
    destruct (IH (fst (k r w')) (snd (k r w')) H2) as [H3 H4]. auto.
  - cbn [fst snd Safe]. split; [|auto].
    intros r w' Hw'. destruct (Hs r w' Hw') as [H1 H2].
    destruct (IH (fst (k r w')) (snd (k r w')) H2) as [H3 H4]. auto.
  - destruct Hs as [Hc Hr]. destruct (IH rest w Hr) as [H1 H2].
    cbn [fst snd Safe]. auto.
Qed.

Lemma safe_bind {A B : Type} (m : M A) (f : A -> M B) :
  SafeM m -> (forall a, SafeM (f a)) -> SafeM (bind m f).
Proof.
  intros Hm Hf w. unfold bind. destruct (Hm w) as [H1 H2].
  destruct (bindS_safe f Hf (fst (m w)) (snd (m w)) H1) as [H3 H4]. auto.
Qed.

Lemma safe_ret {A : Type} (a : A) : SafeM (ret a).
Proof. intros w. cbn. auto. Qed.

Lemma safe_getBot : SafeM getBot.
Proof. intros w. cbn. auto. Qed.

Lemma safe_newDate : SafeM newDate.
Proof. intros w. cbn. auto. Qed.

Lemma safe_effect e :
  match e with SetInterval _ _ | ClearInterval _ => False | _ => True end ->
  SafeM (effect e).
Proof.
  intros He w. cbn [effect fst snd Safe]. split; [exact I|].
  intros [Hb [Ht Hs]]. split; [exact Hb|]. split; [|exact Hs].
  cbn [trace bot]. rewrite armed_app, <- Ht. destruct e; try reflexivity; contradiction.
Qed.

Lemma safe_modifyBot f : Keeps f -> SafeM (modifyBot f).
Proof.
  intros Hf w. cbn [modifyBot fst snd Safe]. split; [exact I|].
  destruct (Hf (bot w)) as [H1 [H2 [H3 [H4 H5]]]].
  intros [[Hh [Ht Hl]] [Ha Hs]]. unfold Inv, Bounded, OneTimer. cbn [bot trace].
  rewrite H1, H2. auto 10.
Qed.

Lemma safe_axiosGet url h : SafeM (axiosGet url h).
Proof.
  intros w. cbn [axiosGet fst snd Safe]. split.
  - intros r w' Hw'. cbn. auto.
  - intros [Hb [Ht Hs]]. split; [exact Hb|]. split; [|exact Hs].
    cbn [trace bot]. now rewrite armed_app.
Qed.

Lemma safe_axiosPost url d h : SafeM (axiosPost url d h).
Proof.
  intros w. cbn [axiosPost fst snd Safe]. split.
  - intros r w' Hw'. cbn. auto.
  - intros [Hb [Ht Hs]]. split; [exact Hb|]. split; [|exact Hs].
    cbn [trace bot]. now rewrite armed_app.
Qed.

(** The changes of fields that the cycle makes. *)
Lemma keeps_fields :
  (forall v, Keeps (set_currentDelta v))
  /\ (forall v, Keeps (set_ethValue v))
  /\ (forall v, Keeps (set_lastCheck v))
  /\ (forall e, Keeps (fun b => set_deltaHistory (pushShift 100 (deltaHistory b) e) b))
  /\ (forall e, Keeps (fun b => set_trades (unshiftPop 50 (trades b) e) b))
  /\ (forall e, Keeps (fun b => set_logs (unshiftPop 200 (logs b) e) b))
  /\ Keeps (fun b => set_totalTrades (S (totalTrades b)) b).
Proof.
  repeat split; cbn; auto;
    intros; first [apply pushShift_length | apply unshiftPop_length]; assumption.
Qed.

(** Proves [SafeM] of a computation made of the steps above. *)
Ltac safe_step :=
  lazymatch goal with
  | |- SafeM (bind _ _) => apply safe_bind; [|intro]
  | |- SafeM (ret _) => apply safe_ret
  | |- SafeM getBot => apply safe_getBot
  | |- SafeM newDate => apply safe_newDate
  | |- SafeM (axiosGet _ _) => apply safe_axiosGet
  | |- SafeM (axiosPost _ _ _) => apply safe_axiosPost
  | |- SafeM (effect _) => apply safe_effect; exact I
  | |- SafeM (modifyBot _) => apply safe_modifyBot; apply keeps_fields
  | |- SafeM (if ?c then _ else _) => destruct c
  | |- SafeM (match ?x with _ => _ end) => destruct x
  end.

Ltac safe := repeat safe_step.

Lemma safe_log level message : SafeM (TradingBot.log level message).
Proof. unfold TradingBot.log. safe. Qed.

Lemma safe_getPositions this : SafeM (DeltaAPI.getPositions this).
Proof.
  unfold DeltaAPI.getPositions, DeltaAPI.getHeaders, DeltaAPI.generateSignature.
  safe.
Qed.

Lemma safe_placeFutureOrder this productId size side :
  SafeM (DeltaAPI.placeFutureOrder this productId size side).
Proof.
  unfold DeltaAPI.placeFutureOrder, DeltaAPI.getHeaders,
    DeltaAPI.generateSignature.
  safe.
Qed.

Lemma safe_executeHedge currentDelta : SafeM (TradingBot.executeHedge currentDelta).
Proof.
  unfold TradingBot.executeHedge.
  repeat first [ safe_step
               | lazymatch goal with
                 | |- SafeM (TradingBot.log _ _) => apply safe_log
                 | |- SafeM (DeltaAPI.placeFutureOrder _ _ _ _) =>
                     apply safe_placeFutureOrder
                 end ].
Qed.

Lemma safe_checkAndHedge : SafeM TradingBot.checkAndHedge.
Proof.
  unfold TradingBot.checkAndHedge.
  repeat first [ safe_step
               | lazymatch goal with
                 | |- SafeM (TradingBot.log _ _) => apply safe_log
                 | |- SafeM (DeltaAPI.getPositions _) => apply safe_getPositions
                 | |- SafeM (TradingBot.executeHedge _) => apply safe_executeHedge
                 end ].
Qed.

Lemma Forall_firstn {A} (P : A -> Prop) (l : list A) :
  forall n, Forall P l -> Forall P (firstn n l).
Proof.
  induction l as [|a l IH]; intros [|n] H; cbn; try constructor.
  - now inversion H.
  - apply IH. now inversion H.
Qed.

Lemma Forall_skipn {A} (P : A -> Prop) (l : list A) :
  forall n, Forall P l -> Forall P (skipn n l).
Proof.
  induction l as [|a l IH]; intros [|n] H; cbn; try assumption.
  apply IH. now inversion H.
Qed.

Lemma Forall_nth_error {A} (P : A -> Prop) (l : list A) :
  forall i a, Forall P l -> nth_error l i = Some a -> P a.
Proof.
  induction l as [|b l IH]; intros [|i] a H E; cbn in E; try discriminate.
  - injection E as <-. now inversion H.
  - apply (IH i); [now inversion H | assumption].
Qed.

(** *** Functions that are not [async] *)

Lemma bindS_sync {A B : Type} (f : A -> M B) :
  (forall a w, Sync (fst (f a w))) ->
  forall (s : Susp A) (w : World), Sync s -> Sync (fst (bindS s f w)).
Proof.
  intros Hf. fix IH 1. intros [a|k|k|child rest] w Hs; cbn [bindS].
  - apply Hf.
  - contradiction.
  - contradiction.
  - destruct Hs as [Hc Hr]. cbn [fst Sync]. split; [exact Hc|].
    now apply IH.
Qed.

Lemma sync_bind {A B : Type} (m : M A) (f : A -> M B) :
  (forall w, Sync (fst (m w))) -> (forall a w, Sync (fst (f a w))) ->
  forall w, Sync (fst (bind m f w)).
Proof. intros Hm Hf w. unfold bind. now apply bindS_sync. Qed.

Lemma sync_log level message w : Sync (fst (TradingBot.log level message w)).
Proof. exact I. Qed.

Lemma sync_spawn_cycle w : Sync (fst (spawn TradingBot.checkAndHedge w)).
Proof.
  cbn [spawn fst Sync]. split; [|exact I]. apply safe_checkAndHedge.
Qed.

Ltac sync_step :=
  cbv beta;
  lazymatch goal with
  | |- Sync (fst (bind _ _ _)) => apply sync_bind; [intro|intros ? ?]
  | |- Sync (fst (TradingBot.log _ _ _)) => apply sync_log
  | |- Sync (fst (spawn TradingBot.checkAndHedge _)) => apply sync_spawn_cycle
  | |- Sync (fst (ret _ _)) => exact I
  | |- Sync (fst (getBot _)) => exact I
  | |- Sync (fst (modifyBot _ _)) => exact I
  | |- Sync (fst (effect _ _)) => exact I
  | |- Sync (fst (setInterval _ _)) => exact I
  | |- Sync (fst (clearInterval _ _)) => exact I
  | |- Sync (fst ((if ?c then _ else _) _)) => destruct c
  | |- Sync (fst ((match ?x with _ => _ end) _)) => destruct x
  end.

Lemma sync_start w : Sync (fst (TradingBot.start w)).
Proof. unfold TradingBot.start. repeat sync_step. Qed.

Lemma sync_stop w : Sync (fst (TradingBot.stop w)).
Proof. unfold TradingBot.stop. repeat sync_step. Qed.

Lemma sync_updateSettings newSettings w :
  Sync (fst (TradingBot.updateSettings newSettings w)).
Proof.
  unfold TradingBot.updateSettings, TradingBot.whenTruthy.
  repeat first [ sync_step
               | lazymatch goal with
                 | |- Sync (fst (TradingBot.stop _)) => apply sync_stop
                 | |- Sync (fst (TradingBot.start _)) => apply sync_start
                 end ].
Qed.

Lemma sync_handle r w : Sync (fst (Server.handle r w)).
Proof.
  destruct r; unfold Server.handle;
    repeat first [ sync_step
                 | lazymatch goal with
                   | |- Sync (fst (TradingBot.stop _)) => apply sync_stop
                   | |- Sync (fst (TradingBot.start _)) => apply sync_start
                   | |- Sync (fst (TradingBot.updateSettings _ _)) =>
                       apply sync_updateSettings
                   end ].
Qed.

Lemma sync_listening port w : Sync (fst (Server.listening port w)).
Proof.
  unfold Server.listening. cbv zeta.
  repeat first [ sync_step
               | lazymatch goal with
                 | |- Sync (fst (TradingBot.start _)) => apply sync_start
                 end ].
Qed.

(** *** The routes keep the invariant *)

Ltac inv_cases w H :=
  destruct w as [[? [|] ? ? ? ? [? ? ? ?] ? ? ? [?|]] ? ? ?];
  destruct H as [[Hh [Ht Hl]] [Ha Hs]];
  cbn [bot trace status interval deltaHistory trades logs] in Hh, Ht, Hl, Ha, Hs;
  try (exfalso; assert (X : stopped = running) by (apply Hs; discriminate);
       discriminate X);
  try (exfalso; apply (proj1 Hs eq_refl); reflexivity).

Ltac inv_done :=
  unfold Inv, Bounded, OneTimer;
  cbn [bot trace status interval deltaHistory trades logs];
  repeat rewrite armed_app;
  repeat match goal with
         | H : armed _ = _ |- _ => rewrite H
         end;
  cbn [armedStep filter app negb];
  repeat rewrite Nat.eqb_refl; cbn [negb];
  repeat split;
  try assumption; try reflexivity; try discriminate; try congruence;
  try (repeat apply unshiftPop_length; assumption).

Lemma start_inv w : Inv w -> Inv (snd (TradingBot.start w)).
Proof. intros H. inv_cases w H; eval_cycle; inv_done. Qed.

Lemma stop_inv w : Inv w -> Inv (snd (TradingBot.stop w)).
Proof. intros H. inv_cases w H; eval_cycle; inv_done. Qed.

Lemma updateSettings_inv newSettings w :
  Inv w -> Inv (snd (TradingBot.updateSettings newSettings w)).
Proof.
  intros H. destruct newSettings as [[dt|] [ci|] [mh|]];
    inv_cases w H; eval_cycle; inv_done.
Qed.

Lemma bind_pure_snd {A B : Type} (m : M A) (f : A -> M B) :
  (forall a w, snd (f a w) = w) ->
  forall w, snd (bind m f w) = snd (m w).
Proof.
  intros Hf w. unfold bind. generalize (snd (m w)). generalize (fst (m w)).
  fix IH 1. intros [a|k|k|child rest] w'; cbn [bindS snd].
  - apply Hf.
  - reflexivity.
  - reflexivity.
  - apply IH.
Qed.

Lemma handle_snd r w :
  snd (Server.handle r w)
  = match r with
    | BotStart => snd (TradingBot.start w)
    | BotStop => snd (TradingBot.stop w)
    | ApiSettings body => snd (TradingBot.updateSettings body w)
    | _ => w
    end.
Proof.
  destruct r; unfold Server.handle;
    try (destruct w; reflexivity);
    apply bind_pure_snd; reflexivity.
Qed.

Lemma handle_inv r w : Inv w -> Inv (snd (Server.handle r w)).
Proof.
  intros H. rewrite handle_snd.
  destruct r; auto using start_inv, stop_inv, updateSettings_inv.
Qed.

Lemma listening_inv port w : Inv w -> Inv (snd (Server.listening port w)).
Proof. intros H. inv_cases w H; unfold Server.listening; eval_cycle; inv_done. Qed.

(** *** Every reachable state *)

Lemma step_inv e s :
  Inv (world s) /\ Forall (Safe Inv) (pending s) ->
  Inv (world (step e s)) /\ Forall (Safe Inv) (pending (step e s)).
Proof.
  intros [Hw Hp]. destruct e as [t port|t r|t id|t i r|t i r]; cbn [step].
  - cbn [world pending]. split.
    + apply listening_inv, Inv_at_time, Hw.
    + apply Forall_app. split; [exact Hp|].
      apply spawned_safe, sync_listening.
  - cbn [world pending]. split.
    + apply handle_inv, Inv_at_time, Hw.
    + apply Forall_app. split; [exact Hp|].
      apply spawned_safe, sync_handle.
  - destruct (existsb (Nat.eqb id) (armed (trace (world s)))); [|auto].
    cbn [world pending].
    destruct (safe_checkAndHedge (at_time t (world s))) as [H1 H2]. split.
    + apply H2, Inv_at_time, Hw.
    + apply Forall_app. split; [exact Hp|]. now apply tasks_safe.
  - destruct (nth_error (pending s) i) as [[a|k|k|c r']|] eqn:E; auto.
    cbn [world pending].
    pose proof (Forall_nth_error _ _ _ _ Hp E) as Hk. cbn [Safe] in Hk.
    destruct (Hk r (at_time t (world s)) (Inv_at_time _ _ Hw)) as [H1 H2].
    split; [exact H1|]. apply Forall_app. split.
    + unfold removeNth. apply Forall_app.
      split; [now apply Forall_firstn | now apply Forall_skipn].
    + now apply tasks_safe.
  - destruct (nth_error (pending s) i) as [[a|k|k|c r']|] eqn:E; auto.
    cbn [world pending].
    pose proof (Forall_nth_error _ _ _ _ Hp E) as Hk. cbn [Safe] in Hk.
    destruct (Hk r (at_time t (world s)) (Inv_at_time _ _ Hw)) as [H1 H2].
    split; [exact H1|]. apply Forall_app. split.
    + unfold removeNth. apply Forall_app.
      split; [now apply Forall_firstn | now apply Forall_skipn].
    + now apply tasks_safe.
Qed.

Lemma initial_inv env : Inv (initialWorld env).
Proof.
  unfold Inv, Bounded, OneTimer. cbn. repeat split; try lia; try discriminate.
  intros H. now elim H.
Qed.

Lemma steps_inv es : forall s,
  Inv (world s) /\ Forall (Safe Inv) (pending s) ->
  Inv (world (steps es s)) /\ Forall (Safe Inv) (pending (steps es s)).
Proof.
  unfold steps. induction es as [|e es IH]; intros s H; [exact H|].
  cbn [fold_left]. apply IH, step_inv, H.
Qed.

Lemma reachable_inv env es : Inv (world (steps es (initialSys env))).
Proof.
  apply steps_inv. split; [apply initial_inv | constructor].
Qed.

(** X1. The three arrays stay within their capacities in every state the
    process can reach, whatever the order in which requests, timer ticks
    and replies of the exchange arrive: at most 100 history entries, 50
    trades and 200 log entries. *)
Theorem buffers_bounded_always env es :
  let b := bot (world (steps es (initialSys env))) in
  (List.length (deltaHistory b) <= 100)%nat
  /\ (List.length (trades b) <= 50)%nat
  /\ (List.length (logs b) <= 200)%nat.
Proof. exact (proj1 (reachable_inv env es)). Qed.

(** X2. In every state the process can reach, the armed timers are exactly the
    handle the bot holds (so at most one timer is armed), and the bot is
    running exactly when it holds a handle. *)
Theorem one_timer_always env es :
  let w := world (steps es (initialSys env)) in
  armed (trace w) = match interval (bot w) with Some id => [id] | None => [] end
  /\ (status (bot w) = running <-> interval (bot w) <> None).
Proof. exact (proj2 (reachable_inv env es)). Qed.

(** ** The accessors *)

Lemma slice0_all {A} (l : list A) (n : Z) :
  (Z.of_nat (List.length l) <= n)%Z -> Js.slice0 l n = l.
Proof.
  intros H. unfold Js.slice0.
  destruct (Z.ltb_spec n 0) as [Hn|Hn]; [lia|].
  apply firstn_all2. lia.
Qed.

Lemma sliceFrom_all {A} (l : list A) (n : Z) :
  (Z.of_nat (List.length l) <= n)%Z -> Js.sliceFrom l (- n) = l.
Proof.
  intros H. unfold Js.sliceFrom.
  destruct (Z.ltb_spec (- n) 0) as [Hn|Hn].
  - replace (Z.to_nat (Z.max (Z.of_nat (List.length l) + - n) 0)) with 0%nat
      by lia.
    reflexivity.
  - replace (Z.to_nat (- n)) with 0%nat by lia. reflexivity.
Qed.

(** X3. In every state the process can reach, the routes [/api/trades],
    [/api/delta-history] and [/api/logs] answer with the whole array of
    trades, of history entries and of log entries: their limits 50, 100
    and 200 never cut anything. *)
Theorem pull_routes_return_everything env es t :
  let w := world (steps es (initialSys env)) in
  fst (Server.handle ApiTrades (at_time t w)) = Done (TradesJson (trades (bot w)))
  /\ fst (Server.handle ApiDeltaHistory (at_time t w))
     = Done (HistoryJson (deltaHistory (bot w)))
  /\ fst (Server.handle ApiLogs (at_time t w)) = Done (LogsJson (logs (bot w))).
Proof.
  intros w. destruct (reachable_inv env es) as [[Hh [Ht Hl]] _]. fold w in Hh, Ht, Hl.
  cbn [Server.handle bind bindS getBot ret fst snd at_time bot].
  unfold TradingBot.getRecentTrades, TradingBot.getDeltaHistory,
    TradingBot.getRecentLogs.
  rewrite slice0_all by lia. rewrite slice0_all by lia.
  change (- 100)%Z with (- (100))%Z. rewrite sliceFrom_all by lia.
  auto.
Qed.

(** X4. With a limit between 0 and the length, [getRecentTrades] and
    [getRecentLogs] return that many entries from the head and
    [getDeltaHistory] that many from the tail; but with the limit 0,
    [getDeltaHistory] returns the whole history, where the other two return
    nothing. *)
Theorem accessor_limits this (limit : Z) :
  (0 < limit)%Z ->
  TradingBot.getRecentTrades this (Some limit)
  = firstn (Z.to_nat limit) (trades this)
  /\ TradingBot.getRecentLogs this (Some limit)
     = firstn (Z.to_nat limit) (logs this)
  /\ TradingBot.getDeltaHistory this (Some limit)
     = skipn (List.length (deltaHistory this) - Z.to_nat limit)
             (deltaHistory this)
  /\ TradingBot.getRecentTrades this (Some 0%Z) = []
  /\ TradingBot.getRecentLogs this (Some 0%Z) = []
  /\ TradingBot.getDeltaHistory this (Some 0%Z) = deltaHistory this.
Proof.
  intros H.
  unfold TradingBot.getRecentTrades, TradingBot.getRecentLogs,
    TradingBot.getDeltaHistory, Js.slice0, Js.sliceFrom.
  destruct (Z.ltb_spec limit 0) as [Hn|Hn]; [lia|].
  destruct (Z.ltb_spec (- limit) 0) as [Hm|Hm]; [|lia].
  repeat split. f_equal. lia.
Qed.

Lemma accessor_limits_witness :
  TradingBot.getDeltaHistory
    (bot (cycles manyCycles (initialWorld exampleEnv))) (Some 2%Z)
  = skipn 98 (deltaHistory (bot (cycles manyCycles (initialWorld exampleEnv)))).
Proof.
  assert (H : (0 < 2)%Z) by lia.
  destruct (accessor_limits (bot (cycles manyCycles (initialWorld exampleEnv)))
              2%Z H) as [_ [_ [X _]]].
  rewrite X. f_equal.
Defined.

(** ** Start, stop and the settings *)

Ltac emitted_is :=
  erewrite emitted_app
    by (cbn [trace]; repeat rewrite <- app_assoc; reflexivity).

(** X5. [start] on a stopped bot makes it running, arms one timer with the
    period [checkInterval] and keeps its handle, and at once sends the
    request for the positions of a first cycle, which is left waiting for
    the reply; the settings are untouched. *)
Theorem start_from_stopped w :
  status (bot w) = stopped ->
  let w' := snd (TradingBot.start w) in
  status (bot w') = running
  /\ interval (bot w') = Some (nextTimer w)
  /\ timers (emitted w w')
     = [SetInterval (nextTimer w) (checkInterval (settings (bot w)))]
  /\ List.length (gets (emitted w w')) = 1%nat
  /\ settings (bot w') = settings (bot w)
  /\ exists k, spawned (fst (TradingBot.start w)) = [AwaitGet k].
Proof.
  intros H.
  destruct w as [[? [|] ? ? ? ? [? ? ? ?] ? ? ? ?] ? ? ?];
    [|discriminate H].
  cbv zeta. eval_cycle. repeat split; try (emitted_is; reflexivity).
  eexists. reflexivity.
Qed.

Lemma start_from_stopped_witness :
  status (bot (snd (TradingBot.start (initialWorld exampleEnv)))) = running
  /\ interval (bot (snd (TradingBot.start (initialWorld exampleEnv)))) = Some 0%nat.
Proof.
  pose proof (start_from_stopped (initialWorld exampleEnv) eq_refl) as X.
  cbv zeta in X. destruct X as [A [B _]]. split; [exact A | exact B].
Defined.

(** X6. [start] on a running bot does nothing: the state is the same, nothing
    is logged or emitted, no timer is armed and no cycle is started. *)
Theorem start_when_running w :
  status (bot w) = running ->
  TradingBot.start w = (Done tt, w).
Proof.
  intros H. unfold TradingBot.start.
  cbn [bind bindS getBot fst snd]. rewrite H. reflexivity.
Qed.

Lemma start_when_running_witness :
  TradingBot.start runningWorld = (Done tt, runningWorld).
Proof. apply start_when_running. reflexivity. Defined.

(** X7. [stop] makes the bot stopped without a timer handle and clears the
    timer it held, if any; it starts nothing, leaves the settings, the
    history, the trades and the figures of the last check as they were and
    adds one entry to the log. *)
Theorem stop_clears_timer w :
  let w' := snd (TradingBot.stop w) in
  status (bot w') = stopped
  /\ interval (bot w') = None
  /\ timers (emitted w w')
     = match interval (bot w) with Some id => [ClearInterval id] | None => [] end
  /\ fst (TradingBot.stop w) = Done tt
  /\ bot w'
     = set_logs (unshiftPop 200 (logs (bot w))
                            (mkLogEntry "INFO" [Lit "🛑 Bot stopped"] (now w)))
         (set_status stopped (set_interval None (bot w))).
Proof.
  destruct w as [[? ? ? ? ? ? [? ? ? ?] ? ? ? [?|]] ? ? ?]; cbv zeta;
    eval_cycle; repeat split; emitted_is; reflexivity.
Qed.

(** X8. A request to change the settings is merged field by field: a field
    that is present and not zero replaces the setting, a missing or zero
    one keeps it, and the product id is never changed.  Nothing is checked:
    a negative check interval is stored as it comes. *)
Theorem settings_merged newSettings w :
  let s := settings (bot w) in
  let s' := settings (bot (snd (TradingBot.updateSettings newSettings w))) in
  s' = mkSettings (Js.orNum (n_deltaThreshold newSettings) (deltaThreshold s))
                  (Js.orNum (n_checkInterval newSettings) (checkInterval s))
                  (Js.orNum (n_minHedgeSize newSettings) (minHedgeSize s))
                  (ethFutureProductId s)
  /\ (forall v, (v < 0)%Q -> n_checkInterval newSettings = Some v ->
        checkInterval s' = v).
Proof.
  cbv zeta.
  assert (H : settings (bot (snd (TradingBot.updateSettings newSettings w)))
              = mkSettings
                  (Js.orNum (n_deltaThreshold newSettings)
                            (deltaThreshold (settings (bot w))))
                  (Js.orNum (n_checkInterval newSettings)
                            (checkInterval (settings (bot w))))
                  (Js.orNum (n_minHedgeSize newSettings)
                            (minHedgeSize (settings (bot w))))
                  (ethFutureProductId (settings (bot w)))).
  { destruct newSettings as [[dt|] [ci|] [mh|]];
      destruct w as [[? [|] ? ? ? ? [? ? ? ?] ? ? ? [?|]] ? ? ?];
      unfold Js.orNum; eval_cycle; reflexivity. }
  split; [exact H|].
  intros v Hv Hci. rewrite H, Hci. cbn [checkInterval Js.orNum].
  assert (Ht : Js.truthy v = true).
  { unfold Js.truthy. apply negb_true_iff.
    destruct (Qeq_bool v 0) eqn:E; [|reflexivity].
    apply Qeq_bool_iff in E. rewrite E in Hv. now apply Qlt_irrefl in Hv. }
  now rewrite Ht.
Qed.

Lemma settings_merged_witness :
  checkInterval
    (settings (bot (snd (TradingBot.updateSettings
                           (mkNewSettings None (Some (-5)%Q) None)
                           (initialWorld exampleEnv)))))
  = (-5)%Q.
Proof.
  pose proof (settings_merged (mkNewSettings None (Some (-5)%Q) None)
                (initialWorld exampleEnv)) as X.
  cbv zeta in X. destruct X as [_ X].
  apply X; [reflexivity | reflexivity].
Defined.

(** X9. A new check interval given to a running bot restarts it: the timer it
    held is cleared, one timer is armed with the new period and its handle
    kept, the bot is running again and the request of one more cycle is
    sent at once.  Given to a stopped bot it is only stored. *)
Theorem interval_change_restarts newSettings v w :
  n_checkInterval newSettings = Some v -> Js.truthy v = true ->
  let w' := snd (TradingBot.updateSettings newSettings w) in
  (forall id, status (bot w) = running -> interval (bot w) = Some id ->
     timers (emitted w w') = [ClearInterval id; SetInterval (nextTimer w) v]
     /\ status (bot w') = running
     /\ interval (bot w') = Some (nextTimer w)
     /\ List.length (gets (emitted w w')) = 1%nat)
  /\ (status (bot w) = stopped ->
      timers (emitted w w') = []
      /\ status (bot w') = stopped
      /\ interval (bot w') = interval (bot w)
      /\ gets (emitted w w') = []).
Proof.
  destruct newSettings as [dt ci mh]. cbn [n_checkInterval]. intros -> Hv.
  cbv zeta.
  cbv beta iota delta [TradingBot.updateSettings TradingBot.whenTruthy
                       n_deltaThreshold n_checkInterval n_minHedgeSize].
  rewrite Hv.
  split.
  - intros id Hs Hi.
    destruct w as [[? [|] ? ? ? ? [? ? ? ?] ? ? ? [?|]] ? ? ?];
      try discriminate Hs; try discriminate Hi.
    injection Hi as ->.
    destruct dt as [dt|], mh as [mh|];
      eval_cycle; repeat split; emitted_is; reflexivity.
  - intros Hs.
    destruct w as [[? [|] ? ? ? ? [? ? ? ?] ? ? ? ?] ? ? ?];
      try discriminate Hs.
    destruct dt as [dt|], mh as [mh|];
      eval_cycle; repeat split; emitted_is; reflexivity.
Qed.

Lemma interval_change_restarts_witness :
  timers (emitted runningWorld
            (snd (TradingBot.updateSettings
                    (mkNewSettings None (Some 30000%Q) None) runningWorld)))
  = [ClearInterval 0; SetInterval 1 30000%Q].
Proof.
  pose proof (interval_change_restarts (mkNewSettings None (Some 30000%Q) None)
                30000%Q runningWorld eq_refl eq_refl) as X.
  cbv zeta in X. destruct X as [X _].
  destruct (X 0%nat eq_refl eq_refl) as [X1 _]. exact X1.
Defined.

(** ** More on cycles *)

(** X10. A cycle does not look at the status of the bot: run on a stopped bot
    it records, publishes and hedges as on a running one.  So the cycle
    whose reply arrives after [stop] is still carried out. *)
Theorem cycle_ignores_status st fetch order w :
  cycle fetch order (withStatus st w) = withStatus st (cycle fetch order w).
Proof.
  destruct fetch as [t1 [[[[|p ps]|]]|e]], order as [t2 [data|e']];
    destruct w as [[? ? ? ? ? ? [? ? ? ?] ? ? ? ?] ? ? ?]; unfold withStatus;
    eval_cycle; reflexivity.
Qed.

(** X11. A cycle leaves the status, the timer handle, the settings and the
    client as they were, and arms or clears no timer. *)
Theorem cycle_leaves_controls fetch order w :
  let w' := cycle fetch order w in
  status (bot w') = status (bot w)
  /\ interval (bot w') = interval (bot w)
  /\ settings (bot w') = settings (bot w)
  /\ api (bot w') = api (bot w)
  /\ timers (emitted w w') = [].
Proof.
  destruct fetch as [t1 [[[[|p ps]|]]|e]], order as [t2 [data|e']];
    destruct w as [[? ? ? ? ? ? [? ? ? ?] ? ? ? ?] ? ? ?]; cbv zeta;
    eval_cycle; repeat split; emitted_is; reflexivity.
Qed.


(** X13. A cycle emits one [tradeExecuted] event exactly when it records a
    trade; the event carries the side, the absolute size, the total delta
    before the hedge and the new count of trades. *)
Theorem trade_event_per_trade fetch order w :
  tradeEvents (emitted w (cycle fetch order w))
  = match tradeOf (settings (bot w)) (fetch, order) with
    | Some t =>
        [PTradeExecuted (side t) (Qabs (hedgeSize t)) (t_currentDelta t)
                        (S (totalTrades (bot w)))]
    | None => []
    end.
Proof.
  destruct fetch as [t1 [[[[|p ps]|]]|e]], order as [t2 [data|e']];
    destruct w as [[? ? ? ? ? ? [? ? ? ?] ? ? ? ?] ? ? ?];
    unfold tradeOf, fetched, hedges, sideOf;
    eval_cycle; emitted_is; reflexivity.
Qed.

(** X14. Every order a cycle posts cancels the total delta it measured: the
    size is not negative, and the quantity bought (or the opposite of the
    quantity sold) added to the total delta is zero. *)
Theorem hedge_offsets_delta fetch order w o :
  In o (orders (emitted w (cycle fetch order w))) ->
  (0 <= o_size o)%Q
  /\ (signedSize o + totalDelta (calculatePortfolioDelta (fetched (snd fetch)))
      == 0)%Q.
Proof.
  rewrite cycle_orders.
  destruct (fetched (snd fetch)) as [|p ps]; [intros []|].
  cbv zeta. set (d := calculatePortfolioDelta (p :: ps)).
  destruct (hedges (settings (bot w)) d); [|intros []].
  intros [<-|[]]. unfold signedSize, sideOf. cbn [o_size o_side].
  split; [apply Qabs_nonneg|].
  assert (Habs : (Qabs (Qabs (- totalDelta d)) == Qabs (- totalDelta d))%Q)
    by (apply Qabs_pos, Qabs_nonneg).
  destruct (Js.gtb (- totalDelta d) 0) eqn:E; cbn [String.eqb Ascii.eqb Bool.eqb].
  - unfold Js.gtb in E. apply ltb_true_iff in E.
    rewrite Habs, (Qabs_pos (- totalDelta d)) by (apply Qlt_le_weak, E). ring.
  - unfold Js.gtb in E. apply ltb_false_iff in E.
    rewrite Habs, (Qabs_neg (- totalDelta d)) by exact E. ring.
Qed.

Lemma hedge_offsets_delta_witness :
  (signedSize (mkOrderData 27 2 "sell" "market_order" "ioc")
   + totalDelta (calculatePortfolioDelta unhedgedFuture) == 0)%Q.
Proof.
  assert (H : In (mkOrderData 27 2 "sell" "market_order" "ioc")
                 (orders (emitted (initialWorld exampleEnv)
                            (cycle (5%Z, Resolved (mkPositionsData
                                                     (Some unhedgedFuture)))
                                   (9%Z, Resolved "ack")
                                   (initialWorld exampleEnv)))))
    by (vm_compute; left; reflexivity).
  exact (proj2 (hedge_offsets_delta _ _ _ _ H)).
Defined.

(** X15. After cycles run one after the other, [totalTrades] has grown by the
    number of trades they made: it counts the accepted orders, and only
    them. *)
Theorem total_trades_counts cs : forall w,
  totalTrades (bot (cycles cs w))
  = (totalTrades (bot w)
     + List.length (tradesMade (settings (bot w)) cs))%nat.
Proof.
  unfold cycles, tradesMade.
  induction cs as [|c cs IH]; intros w; [cbn; lia|].
  cbn [fold_left flat_map]. rewrite IH, cycle_settings, length_app.
  destruct c as [fetch order]. cbn [fst snd]. rewrite cycle_totalTrades.
  destruct (tradeOf (settings (bot w)) (fetch, order)); cbn [List.length]; lia.
Qed.

(** ** Overlapping cycles *)

(** X16. A tick of the armed timer always starts a cycle, also while earlier
    cycles still wait for their replies: the request for the positions is
    sent and one more computation waits. *)
Theorem tick_never_skipped t id s :
  existsb (Nat.eqb id) (armed (trace (world s))) = true ->
  let s' := step (Tick t id) s in
  (exists k, pending s' = pending s ++ [AwaitGet k])
  /\ List.length (gets (emitted (world s) (world s'))) = 1%nat.
Proof.
  intros H. cbv zeta. cbn [step]. rewrite H. cbn [pending world].
  destruct s as [w q]. cbn [world pending].
  destruct w as [[? ? ? ? ? ? [? ? ? ?] ? ? ? ?] ? ? ?].
  eval_cycle. split.
  - eexists. reflexivity.
  - emitted_is. reflexivity.
Qed.

Lemma tick_never_skipped_witness :
  List.length
    (pending (step (Tick 60000 0)
                (step (Http 0 BotStart) (initialSys exampleEnv))))
  = 2%nat.
Proof.
  assert (H : existsb (Nat.eqb 0)
                (armed (trace (world (step (Http 0 BotStart)
                                            (initialSys exampleEnv)))))
              = true) by reflexivity.
  destruct (tick_never_skipped 60000 0
              (step (Http 0 BotStart) (initialSys exampleEnv)) H)
    as [[k Hk] _].
  rewrite Hk. reflexivity.
Defined.

(** X17. [stop] cancels the timer only: the cycles that wait for a reply keep
    waiting, and no new one is started. *)
Theorem stop_keeps_pending t s :
  pending (step (Http t BotStop) s) = pending s.
Proof.
  cbn [step pending]. destruct s as [w q]. cbn [world pending].
  destruct w as [[? ? ? ? ? ? [? ? ? ?] ? ? ? [?|]] ? ? ?];
    unfold Server.handle; eval_cycle; apply app_nil_r.
Qed.

(** ** The log *)

Lemma log_logs level message w :
  logs (bot (snd (TradingBot.log level message w)))
  = unshiftPop 200 (logs (bot w)) (mkLogEntry level message (now w)).
Proof. destruct w. reflexivity. Qed.

(** X18. After any calls of [log] on a log of at most 200 entries, the log is
    the 200 (or fewer) first of the new entries, newest first, followed by
    the old ones: never more than 200, the oldest dropped at the tail, each
    entry stamped with the time of its call. *)
Theorem logs_bounded calls w :
  (List.length (logs (bot w)) <= 200)%nat ->
  let entries :=
    map (fun c => mkLogEntry (fst (snd c)) (snd (snd c)) (fst c)) calls in
  logs (bot (logAll calls w)) = firstn 200 (rev entries ++ logs (bot w))
  /\ (List.length (logs (bot (logAll calls w))) <= 200)%nat.
Proof.
  intros Hlen entries.
  assert (Heq : logs (bot (logAll calls w))
                = fold_left (unshiftPop 200) entries (logs (bot w))).
  { subst entries. unfold logAll. clear Hlen. revert w.
    induction calls as [|c calls IH]; intros w; [reflexivity|].
    cbn [fold_left map]. rewrite IH, log_logs. destruct w. reflexivity. }
  rewrite Heq, unshiftPop_fold by assumption.
  split; [reflexivity|]. rewrite length_firstn. lia.
Qed.

Lemma logs_bounded_witness :
  logs (bot (logAll [(1%Z, ("INFO", [Lit "a"])); (2%Z, ("ERROR", [Lit "b"]))]
                    (initialWorld exampleEnv)))
  = [mkLogEntry "ERROR" [Lit "b"] 2; mkLogEntry "INFO" [Lit "a"] 1].
Proof.
  assert (H : (List.length (logs (bot (initialWorld exampleEnv))) <= 200)%nat)
    by (cbn; lia).
  exact (proj1 (logs_bounded
                  [(1%Z, ("INFO", [Lit "a"])); (2%Z, ("ERROR", [Lit "b"]))]
                  (initialWorld exampleEnv) H)).
Defined.

(** ** More on the calculator *)

Lemma sum_app xs ys :
  (Spec.sum (xs ++ ys) == Spec.sum xs + Spec.sum ys)%Q.
Proof.
  unfold Spec.sum. induction xs as [|x xs IH]; cbn [app fold_right].
  - ring.
  - rewrite IH. ring.
Qed.

Lemma calculate_sums ps :
  (totalDelta (calculatePortfolioDelta ps)
   == Spec.sum (map Spec.contribution ps))%Q
  /\ (ethValue (calculatePortfolioDelta ps)
      == Spec.sum (map Spec.notionalOf ps))%Q.
Proof.
  destruct (calculate_fields ps) as [-> [-> _]].
  destruct (fold_forEachBody ps 0 0)%Q as [Hd Hn].
  rewrite Hd, Hn. split; ring.
Qed.






(** X22. When no position has a negative mark price the notional is not
    negative. *)
Theorem notional_nonnegative ps :
  (forall p, In p ps -> (0 <= Js.orNum (mark_price p) 0)%Q) ->
  (0 <= ethValue (calculatePortfolioDelta ps))%Q.
Proof.
  intros H. destruct (calculate_sums ps) as [_ ->].
  unfold Spec.sum. induction ps as [|p ps IH]; cbn [map fold_right].
  - apply Qle_refl.
  - apply (Qle_trans _ (0 + 0)); [apply Qle_bool_iff; reflexivity|].
    apply Qplus_le_compat.
    + unfold Spec.notionalOf. apply Qmult_le_0_compat.
      * apply Qabs_nonneg.
      * apply H. now left.
    + apply IH. intros q Hq. apply H. now right.
Qed.

Lemma notional_nonnegative_witness :
  (0 <= ethValue (calculatePortfolioDelta examplePositions))%Q.
Proof.
  apply notional_nonnegative.
  intros p [<-|[<-|[]]]; apply Qle_bool_iff; vm_compute; reflexivity.
Defined.

(** X23. A position with missing fields, wherever it stands in the list: without
    [size] it counts for nothing; without [product] it adds nothing to the
    total delta; an option without [delta] adds nothing to the total delta;
    without [mark_price] it adds nothing to the notional. *)
Theorem incomplete_positions ps p qs :
  let with_p := calculatePortfolioDelta (ps ++ p :: qs) in
  let without := calculatePortfolioDelta (ps ++ qs) in
  (size p = None ->
   (totalDelta with_p == totalDelta without)%Q
   /\ (ethValue with_p == ethValue without)%Q)
  /\ (product p = None -> (totalDelta with_p == totalDelta without)%Q)
  /\ (delta p = None -> productTypeOf p <> "future" ->
      (totalDelta with_p == totalDelta without)%Q)
  /\ (mark_price p = None -> (ethValue with_p == ethValue without)%Q).
Proof.
  cbv zeta.
  destruct (calculate_sums (ps ++ p :: qs)) as [-> ->].
  destruct (calculate_sums (ps ++ qs)) as [-> ->].
  rewrite !map_app. cbn [map]. rewrite !sum_app.
  unfold Spec.sum at 2 5 8 11. cbn [fold_right]. fold (Spec.sum).
  assert (Hc : forall x, (x == 0)%Q ->
             (Spec.sum (map Spec.contribution ps)
              + (x + fold_right Qplus 0 (map Spec.contribution qs))
              == Spec.sum (map Spec.contribution ps)
                 + Spec.sum (map Spec.contribution qs))%Q).
  { intros x ->. unfold Spec.sum. ring. }
  assert (Hn : forall x, (x == 0)%Q ->
             (Spec.sum (map Spec.notionalOf ps)
              + (x + fold_right Qplus 0 (map Spec.notionalOf qs))
              == Spec.sum (map Spec.notionalOf ps)
                 + Spec.sum (map Spec.notionalOf qs))%Q).
  { intros x ->. unfold Spec.sum. ring. }
  unfold Spec.contribution, Spec.notionalOf, Spec.classify, productTypeOf.
  assert (Hcases : forall (sz dl : Q) (ty : string),
             ((sz == 0)%Q \/ ((dl == 0)%Q /\ ty <> "future")
              \/ ty = "") ->
             ((if String.eqb ty "future" then Spec.future
               else if String.eqb ty "call_options" then Spec.call_option
               else if String.eqb ty "put_options" then Spec.put_option
               else Spec.other) = Spec.other
              \/ (match (if String.eqb ty "future" then Spec.future
                         else if String.eqb ty "call_options"
                              then Spec.call_option
                         else if String.eqb ty "put_options"
                              then Spec.put_option
                         else Spec.other) with
                  | Spec.future => sz
                  | Spec.call_option | Spec.put_option => sz * dl
                  | Spec.other => 0
                  end == 0)%Q)).
  { intros sz dl ty [Hz|[[Hz Hf]|Hty]].
    - right. destruct (String.eqb ty "future"); [exact Hz|].
      destruct (String.eqb ty "call_options"); [rewrite Hz; ring|].
      destruct (String.eqb ty "put_options"); [rewrite Hz; ring|reflexivity].
    - right. destruct (String.eqb ty "future") eqn:E.
      + apply String.eqb_eq in E. contradiction.
      + destruct (String.eqb ty "call_options"); [rewrite Hz; ring|].
        destruct (String.eqb ty "put_options"); [rewrite Hz; ring|reflexivity].
    - left. subst ty. reflexivity. }
  assert (Hzero : forall (sz dl : Q) (ty : string),
             ((sz == 0)%Q \/ ((dl == 0)%Q /\ ty <> "future") \/ ty = "") ->
             (match (if String.eqb ty "future" then Spec.future
                     else if String.eqb ty "call_options" then Spec.call_option
                     else if String.eqb ty "put_options" then Spec.put_option
                     else Spec.other) with
              | Spec.future => sz
              | Spec.call_option | Spec.put_option => sz * dl
              | Spec.other => 0
              end == 0)%Q).
  { intros sz dl ty H. destruct (Hcases sz dl ty H) as [->|E];
      [reflexivity|exact E]. }
  split; [|split; [|split]].
  - intros ->. cbn [Js.orNum]. split.
    + apply Hc, Hzero. left. reflexivity.
    + apply Hn. change (Qabs 0) with 0%Q. ring.
  - intros ->. apply Hc, Hzero. right. right. reflexivity.
  - intros -> Hf. apply Hc, Hzero. right. left. split; [reflexivity|exact Hf].
  - intros ->. apply Hn. cbn [Js.orNum]. ring.
Qed.

Lemma incomplete_positions_witness :
  (totalDelta (calculatePortfolioDelta
                 (examplePositions
                    ++ mkPosition None (Some 1%Q)
                         (Some (mkProduct (Some "future"))) (Some 5%Q)
                    :: unhedgedFuture))
   == totalDelta (calculatePortfolioDelta (examplePositions ++ unhedgedFuture)))%Q.
Proof.
  pose proof (incomplete_positions examplePositions
                (mkPosition None (Some 1%Q) (Some (mkProduct (Some "future")))
                            (Some 5%Q))
                unhedgedFuture) as X.
  cbv zeta in X. destruct X as [X _].
  exact (proj1 (X eq_refl)).
Defined.

(** ** The answers of the routes *)

Lemma returned_then {A B : Type} (m : M A) (f : A -> M B) (g : World -> B) :
  (forall a w, f a w = (Done (g w), w)) ->
  forall w, Sync (fst (m w)) ->
  returned (fst (bind m f w)) = Some (g (snd (m w))).
Proof.
  intros Hf w. unfold bind. generalize (snd (m w)). generalize (fst (m w)).
  fix IH 1. intros [a|k|k|child rest] w' Hs; cbn [bindS].
  - rewrite Hf. reflexivity.
  - contradiction.
  - contradiction.
  - cbn [fst returned]. apply IH. exact (proj2 Hs).
Qed.

(** X24. The routes that start and stop the bot answer with the status the bot
    has once they are done, whatever it was before; the route of the
    settings answers [success] with the settings as they are after the
    merge, also when fields were ignored. *)
Theorem routes_answer w :
  (returned (fst (Server.handle BotStart w)) = Some (BotJson true "running")
   /\ status (bot (snd (Server.handle BotStart w))) = running)
  /\ (returned (fst (Server.handle BotStop w)) = Some (BotJson true "stopped")
      /\ status (bot (snd (Server.handle BotStop w))) = stopped)
  /\ (forall body,
        returned (fst (Server.handle (ApiSettings body) w))
        = Some (SettingsJson true
                  (settings (bot (snd (Server.handle (ApiSettings body) w)))))).
Proof.
  split; [|split].
  - split.
    + apply (returned_then TradingBot.start _ (fun _ => BotJson true "running"));
        [reflexivity | apply sync_start].
    + rewrite handle_snd.
      destruct w as [[? [|] ? ? ? ? [? ? ? ?] ? ? ? ?] ? ? ?];
        eval_cycle; reflexivity.
  - split.
    + apply (returned_then TradingBot.stop _ (fun _ => BotJson true "stopped"));
        [reflexivity | apply sync_stop].
    + rewrite handle_snd.
      destruct w as [[? ? ? ? ? ? [? ? ? ?] ? ? ? [?|]] ? ? ?];
        eval_cycle; reflexivity.
  - intros body. rewrite handle_snd.
    apply (returned_then (TradingBot.updateSettings body) _
             (fun w' => SettingsJson true (settings (bot w'))));
      [reflexivity | apply sync_updateSettings].
Qed.

(** X25. When the server starts to listen on a fresh bot, the bot is started:
    it is running, one timer is armed, and the first cycle waits for the
    reply to its request. *)
Theorem listening_starts env t port :
  let s := step (Listen t port) (initialSys env) in
  status (bot (world s)) = running
  /\ armed (trace (world s)) = [0%nat]
  /\ interval (bot (world s)) = Some 0%nat
  /\ List.length (gets (trace (world s))) = 1%nat
  /\ exists k, pending s = [AwaitGet k].
Proof.
  cbv zeta. unfold initialSys, initialWorld, TradingBot.constructor.
  cbn [step world pending]. unfold Server.listening. eval_cycle.
  repeat split. eexists. reflexivity.
Qed.
